(** * recommendation_service.py: blending of offline and online recommendations

    A shallow embedding of [src/recommendation_service.py]: the offline store
    ([Recommendations.get]), the deduplication helper ([dedup_ids]), the online
    candidate generator ([recommendations_online]) and the blending endpoint
    ([recommendations]), followed by the properties the specification states
    about them. *)

From Stdlib Require Import ZArith QArith Lqa List Lia Ascii.
From stdpp Require Import base decidable gmap sets list sorting strings pretty.

Set Warnings "-clear-no-such-hyp".

Local Open Scope Z_scope.

(** ** Data model *)

(** Item and user identifiers are Python [int]s. *)
Abbreviation ItemId := Z (only parsing).
Abbreviation UserId := Z (only parsing).

(** The exceptions the service can meet.  [RequestError] stands for whatever
    [requests.post] or [resp.json()] raise (connection failure, bad JSON). *)
Inductive exn : Type :=
  | KeyError
  | AttributeError
  | TypeError
  | RequestError.

Global Instance exn_eq_dec : EqDecision exn.
Proof. solve_decision. Defined.

(** A Python computation either returns a value or raises. *)
Inductive result (A : Type) : Type :=
  | Ok (a : A)
  | Raise (e : exn).
Arguments Ok {A} a.
Arguments Raise {A} e.

(** Sequencing stops at the first exception; [x ← r; k] is stdpp's notation
    for [mbind]. *)
Global Instance result_ret : MRet result := fun A a => Ok a.
Global Instance result_bind : MBind result := fun A B f r =>
  match r with
  | Ok a => f a
  | Raise e => Raise e
  end.

(** [l[:k]]: for [k >= 0] the first [k] items, for [k < 0] everything but the
    last [-k] items. *)
Definition slice_to {A : Type} (l : list A) (k : Z) : list A :=
  if k <? 0 then take (Z.to_nat (Z.of_nat (length l) + k)) l
  else take (Z.to_nat k) l.

(** ** Deduplication (source lines 100-107) *)

(** The list comprehension
    [[id for id in ids if not (id in seen or seen.add(id))]]
    walks [ids] once with the mutable set [seen]: an id already in [seen] is
    dropped; otherwise [seen.add(id)] runs (it returns [None]), the id is
    kept and [seen] has grown for the rest of the walk. *)
Fixpoint dedup_walk (seen : gset ItemId) (ids : list ItemId) : list ItemId :=
  match ids with
  | [] => []
  | id :: rest =>
      if decide (id ∈ seen) then dedup_walk seen rest
      else id :: dedup_walk ({[id]} ∪ seen) rest
  end.

Definition dedup_ids (ids : list ItemId) : list ItemId := dedup_walk ∅ ids.

(** ** Offline store (source lines 14-48) *)

(** [_recs] holds the two loaded parquet tables ([None] until [load] ran) and
    [_stats] the two usage counters.  The personal frame is indexed by
    [user_id] and is kept as its rows in file order, each with the user it
    belongs to and its [item_id]; of the default frame only the [item_id]
    column matters.  The [rank] column of either is loaded and never read. *)
Record Recommendations : Type := {
  recs_personal : option (list (UserId * ItemId));
  recs_default : option (list ItemId);
  request_personal_count : Z;
  request_default_count : Z
}.

(** [__init__] *)
Definition init : Recommendations :=
  {| recs_personal := None; recs_default := None;
     request_personal_count := 0; request_default_count := 0 |}.

(** [self._stats["request_personal_count"] += 1] and its sibling. *)
Definition count_personal (self : Recommendations) : Recommendations :=
  {| recs_personal := recs_personal self; recs_default := recs_default self;
     request_personal_count := request_personal_count self + 1;
     request_default_count := request_default_count self |}.

Definition count_default (self : Recommendations) : Recommendations :=
  {| recs_personal := recs_personal self; recs_default := recs_default self;
     request_personal_count := request_personal_count self;
     request_default_count := request_default_count self + 1 |}.

(** What [frame.loc[user_id]] evaluates to on a frame whose index has
    repeated labels: a sub-frame when several rows carry the label, the row
    itself (a [Series] over the columns) when exactly one does, and
    [KeyError] when none does. *)
Inductive loc_result : Type :=
  | LocFrame (item_ids : list ItemId)
  | LocRow (item_id : ItemId).

Definition rows_of (frame : list (UserId * ItemId)) (user_id : UserId)
  : list ItemId :=
  (filter (λ row, row.1 = user_id) frame).*2.

Definition loc (frame : list (UserId * ItemId)) (user_id : UserId)
  : result loc_result :=
  match rows_of frame user_id with
  | [] => Raise KeyError
  | [item_id] => Ok (LocRow item_id)
  | item_ids => Ok (LocFrame item_ids)
  end.

(** [recs["item_id"].to_list()]: on a sub-frame the column as a list; on a
    single row [recs["item_id"]] is a scalar, which has no [to_list]. *)
Definition item_id_to_list (recs : loc_result) : result (list ItemId) :=
  match recs with
  | LocFrame item_ids => Ok item_ids
  | LocRow _ => Raise AttributeError
  end.

(** The statements of the [try] block up to, and without, the counter
    increment (which cannot raise).  [None.loc] is an [AttributeError]. *)
Definition get_try (self : Recommendations) (user_id : UserId) (k : Z)
  : result (list ItemId) :=
  match recs_personal self with
  | None => Raise AttributeError
  | Some frame =>
      recs ← loc frame user_id;
      recs ← item_id_to_list recs;
      mret (slice_to recs k)
  end.

(** [Recommendations.get].  A [KeyError] from the [try] block runs the
    [except KeyError] handler; whatever that handler raises leaves [get]
    (a bare [except] beside it guards the [try] block only), and
    [None["item_id"]] is a [TypeError].  Any other exception from the [try]
    block runs the bare [except]. *)
Definition get (self : Recommendations) (user_id : UserId) (k : Z)
  : result (list ItemId) * Recommendations :=
  match get_try self user_id k with
  | Ok recs => (Ok recs, count_personal self)
  | Raise KeyError =>
      match recs_default self with
      | None => (Raise TypeError, self)
      | Some item_ids => (Ok (slice_to item_ids k), count_default self)
      end
  | Raise _ => (Ok [], self)
  end.

(** [recommendations_offline]: the endpoint wraps [rec_store.get]. *)
Definition recommendations_offline (rec_store : Recommendations)
  (user_id : UserId) (k : Z) : result (list ItemId) * Recommendations :=
  get rec_store user_id k.

(** ** Online candidate generator (source lines 109-142) *)

(** A score as [resp.json()] decodes it: a number (an int or a finite
    float, taken as the rational it denotes), one of the two infinities, or
    NaN; Python's JSON decoder reads all of these. *)
Inductive pyfloat : Type :=
  | Finite (q : Q)
  | PosInf
  | NegInf
  | NaN.

(** The body of a [/similar_items] response: two parallel columns. *)
Record SimilarItems : Type := {
  item_id_2 : list ItemId;
  score : list pyfloat
}.

(** The two services behind [requests.post].  A call yields the decoded
    field the code reads ([events] of [/get], the two columns of
    [/similar_items]) or raises. *)
Record Stores : Type := {
  events_store : UserId -> Z -> result (list ItemId);
  features_store : ItemId -> Z -> result SimilarItems
}.

(** The [for item_id in events] loop, threading [items] and [scores]. *)
Fixpoint similar_loop (env : Stores) (k : Z) (events : list ItemId)
  (items : list ItemId) (scores : list pyfloat)
  : result (list ItemId * list pyfloat) :=
  match events with
  | [] => Ok (items, scores)
  | item_id :: events' =>
      item_similar_items ← features_store env item_id k;
      similar_loop env k events'
        (items ++ item_id_2 item_similar_items)
        (scores ++ score item_similar_items)
  end.

(** Python's [x < y], [x <= y] and [x == y] on scores: a comparison with
    NaN is false whichever way it is put. *)
Definition score_lt (x y : pyfloat) : bool :=
  match x, y with
  | Finite a, Finite b =>
      match (a ?= b)%Q with
      | Lt => true
      | _ => false
      end
  | NegInf, Finite _ | NegInf, PosInf | Finite _, PosInf => true
  | _, _ => false
  end.

Definition score_leb (x y : pyfloat) : bool :=
  match x, y with
  | Finite a, Finite b =>
      match (a ?= b)%Q with
      | Gt => false
      | _ => true
      end
  | NegInf, Finite _ | NegInf, PosInf | Finite _, PosInf => true
  | NegInf, NegInf | PosInf, PosInf => true
  | _, _ => false
  end.

Definition score_eqb (x y : pyfloat) : bool :=
  match x, y with
  | Finite a, Finite b =>
      match (a ?= b)%Q with
      | Eq => true
      | _ => false
      end
  | NegInf, NegInf | PosInf, PosInf => true
  | _, _ => false
  end.

Definition is_nan (x : pyfloat) : bool :=
  match x with
  | NaN => true
  | _ => false
  end.

(** [sorted(combined, key=lambda x: x[1], reverse=True)].  CPython's sort
    compares keys with [<] only and is stable; with [reverse=True] it
    reverses the list, sorts it ascending and reverses the outcome.  The
    ascending stable sort is written as an insertion sort.  On keys that
    [<] orders totally (no NaN among them) every stable sort returns the
    same list.  With a NaN among the keys [<] is no order and what CPython
    returns hangs on its run detection; the insertion sort agrees with it
    whenever the reversed list is one run already, that is when no key is
    [<] the key before it, and both then leave the list as it is. *)
Fixpoint insert_by_score (p : ItemId * pyfloat) (l : list (ItemId * pyfloat))
  : list (ItemId * pyfloat) :=
  match l with
  | [] => [p]
  | q :: l' =>
      if score_lt q.2 p.2 then q :: insert_by_score p l' else p :: q :: l'
  end.

Fixpoint sort_by_score (l : list (ItemId * pyfloat))
  : list (ItemId * pyfloat) :=
  match l with
  | [] => []
  | p :: l' => insert_by_score p (sort_by_score l')
  end.

Definition sorted_reverse (l : list (ItemId * pyfloat))
  : list (ItemId * pyfloat) :=
  reverse (sort_by_score (reverse l)).

(** Two scored pairs tie when their scores are equal ([==]). *)
Definition tied (s : pyfloat) (p : ItemId * pyfloat) : Prop :=
  score_eqb p.2 s = true.

Global Instance tied_dec s p : Decision (tied s p).
Proof. unfold tied. apply _. Defined.

(** Order of appearance in a descending / an ascending list ([>=], [<=]). *)
Definition score_ge (p q : ItemId * pyfloat) : Prop :=
  score_leb q.2 p.2 = true.
Definition score_le (p q : ItemId * pyfloat) : Prop :=
  score_leb p.2 q.2 = true.

(** No score of the list is NaN. *)
Definition numbers (scores : list pyfloat) : Prop :=
  Forall (λ s, is_nan s = false) scores.

(** The pipeline after the loop, up to the projection to item ids. *)
Definition combine_sorted (items : list ItemId) (scores : list pyfloat)
  : list ItemId :=
  let combined := zip items scores in
  let combined := sorted_reverse combined in
  combined.*1.

Definition recommendations_online (env : Stores) (user_id : UserId) (k : Z)
  : result (list ItemId) :=
  events ← events_store env user_id 3;
  acc ← similar_loop env k events [] [];
  let combined := combine_sorted acc.1 acc.2 in
  let recs := dedup_ids combined in
  mret (slice_to recs k).

(** ** Blending (source lines 144-176) *)

(** [for i in range(min_length)]: two appends per round.  Every index is
    below both lengths, so the total lookup [!!!] never meets its default. *)
Definition interleave_loop (recs_offline recs_online : list ItemId)
  (min_length : nat) : list ItemId :=
  foldl (λ recs_blended i,
           recs_blended ++ [recs_offline !!! i] ++ [recs_online !!! i])
        [] (seq 0 min_length).

(** [recs_blended] as it stands before deduplication. *)
Definition blend_raw (recs_offline recs_online : list ItemId) : list ItemId :=
  let min_length := Nat.min (length recs_offline) (length recs_online) in
  let recs_blended := interleave_loop recs_offline recs_online min_length in
  let recs_blended :=
    if decide (min_length < length recs_offline)%nat
    then recs_blended ++ drop min_length recs_offline else recs_blended in
  let recs_blended :=
    if decide (min_length < length recs_online)%nat
    then recs_blended ++ drop min_length recs_online else recs_blended in
  recs_blended.

Definition blend (recs_offline recs_online : list ItemId) (k : Z)
  : list ItemId :=
  slice_to (dedup_ids (blend_raw recs_offline recs_online)) k.

(** [recommendations]: the offline call, then the online call, then the
    blend; an exception of either call leaves the endpoint as it is. *)
Definition recommendations (env : Stores) (rec_store : Recommendations)
  (user_id : UserId) (k : Z) : result (list ItemId) * Recommendations :=
  match recommendations_offline rec_store user_id k with
  | (Raise e, rec_store') => (Raise e, rec_store')
  | (Ok recs_offline, rec_store') =>
      match recommendations_online env user_id k with
      | Raise e => (Raise e, rec_store')
      | Ok recs_online => (Ok (blend recs_offline recs_online k), rec_store')
      end
  end.

(** ** The specification's wording of the blend *)

(** First-occurrence deduplication: an id stays where it first occurs and
    its later repeats are discarded. *)
Fixpoint first_occurrences (ids : list ItemId) : list ItemId :=
  match ids with
  | [] => []
  | id :: rest => id :: filter (λ x, x ≠ id) (first_occurrences rest)
  end.

(** Strict alternation, offline first at each pair, for as long as both
    lists last. *)
Fixpoint alternate (offline online : list ItemId) : list ItemId :=
  match offline, online with
  | o :: offline', n :: online' => o :: n :: alternate offline' online'
  | _, _ => []
  end.

(** ** Sample stores and services *)

(** User 7 has one stored row, user 8 three, user 9 none. *)
Definition sample_frame : list (UserId * ItemId) :=
  [(7, 42); (8, 1); (8, 2); (8, 3)].

Definition sample_store : Recommendations :=
  {| recs_personal := Some sample_frame; recs_default := Some [5; 6];
     request_personal_count := 0; request_default_count := 0 |}.

(** The personal table is loaded, the default table is not. *)
Definition store_without_default : Recommendations :=
  {| recs_personal := Some sample_frame; recs_default := None;
     request_personal_count := 0; request_default_count := 0 |}.

(** Two seeds, 10 and 20, with a score tie between their candidates. *)
Definition sample_env : Stores :=
  {| events_store := λ _ _, Ok [10; 20];
     features_store := λ item_id _,
       if decide (item_id = 10)
       then Ok {| item_id_2 := [1; 2]; score := [Finite (1 # 2); Finite (3 # 4)] |}
       else Ok {| item_id_2 := [3; 1]; score := [Finite (1 # 2); Finite (9 # 10)] |} |}.

(** Seeds 10 and 20 yield one candidate each, with the same score. *)
Definition env_tie : Stores :=
  {| events_store := λ _ _, Ok [10; 20];
     features_store := λ item_id _,
       if decide (item_id = 10)
       then Ok {| item_id_2 := [1]; score := [Finite (1 # 2)] |}
       else Ok {| item_id_2 := [2]; score := [Finite (1 # 2)] |} |}.

(** One seed, answered with four candidates, the second with a NaN
    score. *)
Definition env_nan : Stores :=
  {| events_store := λ _ _, Ok [10];
     features_store := λ _ _,
       Ok {| item_id_2 := [1; 2; 3; 4];
             score := [Finite (1 # 2); NaN; Finite (9 # 10);
                       Finite (7 # 10)] |} |}.

(** The events store cannot be reached. *)
Definition env_events_down : Stores :=
  {| events_store := λ _ _, Raise RequestError;
     features_store := λ _ _, Ok {| item_id_2 := []; score := [] |} |}.

(** ** Loading the tables (source lines 22-30) *)

(** The two values of [type] that [load] is called with. *)
Inductive rec_type : Type :=
  | Personal
  | Default.

(** What [pd.read_parquet(path, columns=...)] holds for either table, row
    by row in file order: columns [user_id], [item_id], [rank] for the
    personal table, [item_id], [rank] for the default one. *)
Definition parquet (type : rec_type) : Type :=
  match type with
  | Personal => list (UserId * ItemId * Z)
  | Default => list (ItemId * Z)
  end.

(** [load].  [read_parquet] is the outcome of reading the file; when it
    raises nothing has been stored yet.  The frame is stored under [type];
    [set_index("user_id")] keeps the rows in their order. *)
Definition load (self : Recommendations) (type : rec_type)
  (read_parquet : result (parquet type)) : result () * Recommendations :=
  match read_parquet with
  | Raise e => (Raise e, self)
  | Ok frame =>
      (Ok (),
       match type return parquet type -> Recommendations with
       | Personal => λ rows,
           {| recs_personal := Some (rows.*1);
              recs_default := recs_default self;
              request_personal_count := request_personal_count self;
              request_default_count := request_default_count self |}
       | Default => λ rows,
           {| recs_personal := recs_personal self;
              recs_default := Some (rows.*1);
              request_personal_count := request_personal_count self;
              request_default_count := request_default_count self |}
       end frame)
  end.

(** ** Reporting (source lines 50-53) *)

(** [f"{name:<30} {value} "]: the name, padded with spaces on the right up
    to 30 characters, a space, the value in decimal, a space. *)
Fixpoint spaces (n : nat) : string :=
  match n with
  | O => ""
  | S n' => String " "%char (spaces n')
  end.

Definition stats_line (name : string) (value : Z) : string :=
  name +:+ spaces (30 - String.length name) +:+ " " +:+ pretty value +:+ " ".

(** [stats]: the lines handed to [logger.info], in the order of [_stats]. *)
Definition stats (self : Recommendations) : list string :=
  [ "Stats for recommendations";
    stats_line "request_personal_count" (request_personal_count self);
    stats_line "request_default_count" (request_default_count self) ].

(** ** The application (source lines 56-98, 109-110, 144-145) *)

(** The parquet files [lifespan] reads, as [read_parquet] finds them. *)
Record Files : Type := {
  final_recommendations_feat : result (parquet Personal);
  top_recs : result (parquet Default)
}.

(** [lifespan] up to its [yield]: the personal table is loaded, then the
    default one; an exception of either ends the start-up. *)
Definition lifespan_startup (files : Files) (rec_store : Recommendations)
  : result () * Recommendations :=
  match load rec_store Personal (final_recommendations_feat files) with
  | (Raise e, rec_store') => (Raise e, rec_store')
  | (Ok _, rec_store') => load rec_store' Default (top_recs files)
  end.

(** A request to one of the three routes; [k] is optional and is 100 when
    left out. *)
Inductive request : Type :=
  | PostRecommendationsOffline (user_id : UserId) (k : option Z)
  | PostRecommendationsOnline (user_id : UserId) (k : option Z)
  | PostRecommendations (user_id : UserId) (k : option Z).

Definition handle (env : Stores) (rec_store : Recommendations)
  (req : request) : result (list ItemId) * Recommendations :=
  match req with
  | PostRecommendationsOffline user_id k =>
      recommendations_offline rec_store user_id (default 100 k)
  | PostRecommendationsOnline user_id k =>
      (recommendations_online env user_id (default 100 k), rec_store)
  | PostRecommendations user_id k =>
      recommendations env rec_store user_id (default 100 k)
  end.

(** Requests answered one after the other, each against the two services
    as they answer at that moment; a request that raises is answered with an
    error and the next one is taken. *)
Definition serve (rec_store : Recommendations)
  (requests : list (Stores * request)) : Recommendations :=
  foldl (λ rec_store' r, (handle r.1 rec_store' r.2).2) rec_store requests.

(** [lifespan] as a whole: start-up on the fresh [rec_store], the requests,
    then the report of [stats] at shutdown. *)
Definition lifespan (files : Files) (requests : list (Stores * request))
  : result (list string) :=
  match lifespan_startup files init with
  | (Raise e, _) => Raise e
  | (Ok _, rec_store) => Ok (stats (serve rec_store requests))
  end.


(** The user whose offline entry a request reads, if its route reads the
    offline store at all. *)
Definition offline_user (req : request) : option UserId :=
  match req with
  | PostRecommendationsOnline _ _ => None
  | PostRecommendationsOffline user_id _ | PostRecommendations user_id _ =>
      Some user_id
  end.

(** Requests that read the entry of a user with several stored rows, and
    requests that read the entry of a user with none. *)
Definition hits_personal (frame : list (UserId * ItemId)) (req : request)
  : bool :=
  match offline_user req with
  | Some user_id => bool_decide (2 <= length (rows_of frame user_id))%nat
  | None => false
  end.

Definition hits_default (frame : list (UserId * ItemId)) (req : request)
  : bool :=
  match offline_user req with
  | Some user_id => bool_decide (rows_of frame user_id = [])
  | None => false
  end.

(** Seed 10 is answered, the lookup for seed 20 fails. *)
Definition env_seed_down : Stores :=
  {| events_store := λ _ _, Ok [10; 20];
     features_store := λ item_id _,
       if decide (item_id = 10)
       then Ok {| item_id_2 := [1; 2]; score := [Finite (3 # 4); Finite (1 # 2)] |}
       else Raise RequestError |}.

(** One seed, answered with three candidates in descending score order, one
    of them twice. *)
Definition env_one_seed : Stores :=
  {| events_store := λ _ _, Ok [10];
     features_store := λ _ _,
       Ok {| item_id_2 := [1; 2; 1];
             score := [Finite (9 # 10); Finite (1 # 2); Finite (1 # 4)] |} |}.


(** Files with the rows of [sample_frame] and a two-item default table. *)
Definition sample_files : Files :=
  {| final_recommendations_feat :=
       Ok [(7, 42, 1); (8, 1, 1); (8, 2, 2); (8, 3, 3)];
     top_recs := Ok [(5, 1); (6, 2)] |}.

(** ** Properties of [slice_to] *)

Lemma slice_to_nonneg {A : Type} (l : list A) (k : Z) :
  0 <= k -> slice_to l k = take (Z.to_nat k) l.
Proof.
  intros Hk. unfold slice_to.
  destruct (Z.ltb_spec k 0); [lia | reflexivity].
Qed.

Lemma slice_to_neg {A : Type} (l : list A) (k : Z) :
  k < 0 -> slice_to l k = take (length l - Z.to_nat (- k)) l.
Proof.
  intros Hk. unfold slice_to.
  destruct (Z.ltb_spec k 0); [| lia].
  f_equal. lia.
Qed.

Lemma slice_to_length_le {A : Type} (l : list A) (k : Z) :
  0 <= k -> Z.of_nat (length (slice_to l k)) <= k.
Proof.
  intros Hk. rewrite slice_to_nonneg by done.
  rewrite length_take. lia.
Qed.

Lemma slice_to_nil {A : Type} (k : Z) : slice_to (@nil A) k = [].
Proof. unfold slice_to. destruct (k <? 0); apply take_nil. Qed.

(** ** Properties of [dedup_ids] *)

Section dedup.

Implicit Types (seen : gset ItemId) (ids : list ItemId) (x : ItemId).

Lemma dedup_walk_sublist seen ids : dedup_walk seen ids `sublist_of` ids.
Proof.
  revert seen. induction ids as [|id rest IH]; intros seen; simpl.
  - constructor.
  - case_decide.
    + apply sublist_cons, IH.
    + apply sublist_skip, IH.
Qed.

Lemma dedup_walk_elem seen ids x :
  x ∈ dedup_walk seen ids ↔ x ∈ ids ∧ x ∉ seen.
Proof.
  revert seen. induction ids as [|id rest IH]; intros seen; simpl.
  - set_solver.
  - case_decide as Hin.
    + rewrite IH, elem_of_cons. split; [tauto |].
      intros [[-> | Hx] Hseen]; [contradiction | done].
    + rewrite !elem_of_cons, IH, not_elem_of_union, not_elem_of_singleton.
      split.
      * intros [-> | (Hx & Hne & Hseen)]; [split; [by left | done] | tauto].
      * intros [[-> | Hx] Hseen]; [by left |].
        destruct (decide (x = id)) as [-> | Hne]; [by left | by right].
Qed.

Lemma dedup_walk_NoDup seen ids : NoDup (dedup_walk seen ids).
Proof.
  revert seen. induction ids as [|id rest IH]; intros seen; simpl.
  - constructor.
  - case_decide; [apply IH |].
    constructor; [| apply IH].
    rewrite dedup_walk_elem. set_solver.
Qed.

(** Walking a prefix first leaves [seen] grown by exactly that prefix. *)
Lemma dedup_walk_app seen l1 l2 :
  dedup_walk seen (l1 ++ l2)
  = dedup_walk seen l1 ++ dedup_walk (list_to_set l1 ∪ seen) l2.
Proof.
  revert seen. induction l1 as [|id rest IH]; intros seen; simpl.
  - by rewrite (left_id_L ∅ (∪)).
  - case_decide.
    + rewrite IH. do 2 f_equal. set_solver.
    + rewrite IH. simpl. do 3 f_equal. set_solver.
Qed.

(** A duplicate-free list that avoids [seen] is walked unchanged. *)
Lemma dedup_walk_fixed seen ids :
  NoDup ids -> (∀ x, x ∈ ids -> x ∉ seen) -> dedup_walk seen ids = ids.
Proof.
  revert seen. induction ids as [|id rest IH]; intros seen Hnd Hfresh; simpl.
  - reflexivity.
  - apply NoDup_cons in Hnd as [Hid Hnd].
    case_decide as Hin.
    + exfalso. apply (Hfresh id); [left | done].
    + f_equal. apply IH; [done |].
      intros x Hx. specialize (Hfresh x). set_solver.
Qed.

Lemma dedup_ids_NoDup ids : NoDup (dedup_ids ids).
Proof. apply dedup_walk_NoDup. Qed.

Lemma dedup_ids_elem ids x : x ∈ dedup_ids ids ↔ x ∈ ids.
Proof. unfold dedup_ids. rewrite dedup_walk_elem. set_solver. Qed.

Lemma dedup_ids_sublist ids : dedup_ids ids `sublist_of` ids.
Proof. apply dedup_walk_sublist. Qed.

Lemma dedup_ids_length ids : (length (dedup_ids ids) <= length ids)%nat.
Proof. apply sublist_length, dedup_ids_sublist. Qed.

Lemma dedup_ids_NoDup_id ids : NoDup ids -> dedup_ids ids = ids.
Proof. intros Hnd. apply dedup_walk_fixed; [done | set_solver]. Qed.

(** The walk with a set already seen is the fresh walk with the seen ids
    filtered out. *)
Lemma dedup_walk_union (s1 s2 : gset ItemId) (ids : list ItemId) :
  dedup_walk (s1 ∪ s2) ids = filter (λ x, x ∉ s1) (dedup_walk s2 ids).
Proof.
  revert s2. induction ids as [|id rest IH]; intros s2; simpl; [done |].
  destruct (decide (id ∈ s2)) as [H2 | H2].
  - rewrite decide_True by set_solver. apply IH.
  - rewrite filter_cons. destruct (decide (id ∈ s1)) as [H1 | H1].
    + rewrite decide_True by set_solver.
      rewrite decide_False by (intros Hn; by apply Hn).
      rewrite <- IH. f_equal. set_solver.
    + rewrite decide_False by set_solver.
      rewrite decide_True by done.
      rewrite <- IH. do 2 f_equal. set_solver.
Qed.

(** The walk is the first-occurrence deduplication. *)
Lemma dedup_ids_keeps_first ids : dedup_ids ids = first_occurrences ids.
Proof.
  induction ids as [|id rest IH]; [done |].
  unfold dedup_ids. simpl. rewrite decide_False by set_solver.
  f_equal. rewrite dedup_walk_union. fold (dedup_ids rest). rewrite IH.
  apply list_filter_iff. intros x. set_solver.
Qed.

(** Where an id first occurs, the output has the deduplicated prefix, then
    that id, then ids picked from what follows. *)
Lemma dedup_ids_split_first l1 x l2 :
  x ∉ l1 ->
  ∃ d2, dedup_ids (l1 ++ x :: l2) = dedup_ids l1 ++ x :: d2
        ∧ d2 `sublist_of` l2 ∧ x ∉ d2.
Proof.
  intros Hx.
  exists (dedup_walk ({[x]} ∪ (list_to_set l1 ∪ ∅)) l2).
  unfold dedup_ids. rewrite dedup_walk_app. simpl.
  rewrite decide_False by set_solver.
  split; [done |].
  split; [apply dedup_walk_sublist |].
  rewrite dedup_walk_elem. set_solver.
Qed.

End dedup.

(** C5.  [dedup_ids L] is a subsequence of [L]; it holds every id of [L]
    exactly once; the copy it keeps of an id is the first one: if [x] first
    occurs in [L] after the prefix [l1], the output is the deduplicated
    prefix, then [x], then ids picked from what follows [x]; and it is no
    longer than [L]. *)
Theorem dedup_ids_first_occurrences (L : list ItemId) :
  dedup_ids L `sublist_of` L
  ∧ NoDup (dedup_ids L)
  ∧ (∀ x, x ∈ dedup_ids L ↔ x ∈ L)
  ∧ (∀ l1 x l2, L = l1 ++ x :: l2 → x ∉ l1 →
       ∃ d2, dedup_ids L = dedup_ids l1 ++ x :: d2
             ∧ d2 `sublist_of` l2 ∧ x ∉ d2)
  ∧ (length (dedup_ids L) <= length L)%nat.
Proof.
  split; [apply dedup_ids_sublist |].
  split; [apply dedup_ids_NoDup |].
  split; [apply dedup_ids_elem |].
  split; [| apply dedup_ids_length].
  intros l1 x l2 -> Hx.
  exists (dedup_walk ({[x]} ∪ (list_to_set l1 ∪ ∅)) l2).
  unfold dedup_ids. rewrite dedup_walk_app. simpl.
  rewrite decide_False by set_solver.
  split; [done |].
  split; [apply dedup_walk_sublist |].
  rewrite dedup_walk_elem. set_solver.
Qed.

(** C9.  Deduplicating twice is deduplicating once. *)
Theorem dedup_ids_idempotent (L : list ItemId) :
  dedup_ids (dedup_ids L) = dedup_ids L.
Proof. apply dedup_ids_NoDup_id, dedup_ids_NoDup. Qed.

(** ** The blend *)

Section blend.

Implicit Types (O N : list ItemId).

Lemma alternate_take O N :
  alternate (take (Nat.min (length O) (length N)) O)
            (take (Nat.min (length O) (length N)) N)
  = alternate O N.
Proof.
  revert N. induction O as [|o O IH]; intros [|n N]; simpl; try done.
  by rewrite IH.
Qed.

Lemma alternate_length O N :
  length (alternate O N) = (2 * Nat.min (length O) (length N))%nat.
Proof.
  revert N. induction O as [|o O IH]; intros [|n N]; simpl; try done.
  rewrite IH. lia.
Qed.

Lemma alternate_lookup O N i :
  (i < Nat.min (length O) (length N))%nat ->
  alternate O N !! (2 * i)%nat = O !! i
  ∧ alternate O N !! (2 * i + 1)%nat = N !! i.
Proof.
  revert N i. induction O as [|o O IH]; intros [|n N] i Hi;
    try (simpl in Hi; lia).
  destruct i as [|i]; [done |].
  destruct (IH N i) as [He Ho]; [simpl in Hi; lia |].
  replace (2 * S i)%nat with (S (S (2 * i))) by lia.
  replace (S (S (2 * i)) + 1)%nat with (S (S (2 * i + 1))) by lia.
  split; [exact He | exact Ho].
Qed.

(** The loop from round [s] on, given what the rounds before appended. *)
Lemma interleave_rounds O N (s n : nat) (acc : list ItemId) :
  (s + n <= length O)%nat -> (s + n <= length N)%nat ->
  foldl (λ recs_blended i,
           recs_blended ++ [O !!! i] ++ [N !!! i]) acc (seq s n)
  = acc ++ alternate (take n (drop s O)) (take n (drop s N)).
Proof.
  revert s acc. induction n as [|n IH]; intros s acc HO HN; simpl.
  - by rewrite app_nil_r.
  - destruct (lookup_lt_is_Some_2 O s) as [o Ho]; [lia |].
    destruct (lookup_lt_is_Some_2 N s) as [x Hx]; [lia |].
    rewrite IH by lia.
    rewrite (drop_S O o s Ho), (drop_S N x s Hx). simpl.
    rewrite (list_lookup_total_correct O s o Ho).
    rewrite (list_lookup_total_correct N s x Hx).
    by rewrite <- app_assoc.
Qed.

Lemma interleave_loop_alternate O N :
  interleave_loop O N (Nat.min (length O) (length N)) = alternate O N.
Proof.
  unfold interleave_loop.
  rewrite interleave_rounds by lia.
  rewrite !drop_0. apply alternate_take.
Qed.

(** The code's [recs_blended] is the alternation followed by what is left
    of either list (one of the two remainders is empty). *)
Lemma blend_raw_alternate O N :
  blend_raw O N
  = alternate O N ++ drop (Nat.min (length O) (length N)) O
                  ++ drop (Nat.min (length O) (length N)) N.
Proof.
  unfold blend_raw. rewrite interleave_loop_alternate.
  set (m := Nat.min (length O) (length N)).
  assert (Hm : m = Nat.min (length O) (length N)) by done.
  destruct (decide (m < length O)%nat) as [HO | HO];
    destruct (decide (m < length N)%nat) as [HN | HN]; try lia.
  - rewrite (drop_ge N m) by lia. by rewrite app_nil_r.
  - rewrite (drop_ge O m) by lia. done.
  - rewrite (drop_ge O m), (drop_ge N m) by lia. by rewrite app_nil_r.
Qed.

Lemma blend_length_le O N (k : Z) :
  0 <= k -> Z.of_nat (length (blend O N k)) <= k.
Proof. apply slice_to_length_le. Qed.

End blend.

(** C1.  Before deduplication the blended sequence alternates offline and
    online items over the first [m = min(len O, len N)] pairs and ends with
    the remainder of the longer list.  The answer is that sequence
    deduplicated and cut to [k], also through the endpoint, and the
    deduplication is the first-occurrence one: its outcome has no repeated
    item, and an item sits where it first occurs, after the deduplicated
    prefix that precedes it.  [O = [A, B, C]], [N = [X, Y]], [k = 3] (five
    distinct items) gives [[A, X, B]]; [O = [A, B]], [N = [B, C]] gives
    [[A, B, C]] once [k >= 3]. *)
Theorem recommendations_blend_alternates (O N : list ItemId) (k : Z)
  (Hk : 0 <= k) :
  let m := Nat.min (length O) (length N) in
  (∀ i, (i < m)%nat →
     blend_raw O N !! (2 * i)%nat = O !! i
     ∧ blend_raw O N !! (2 * i + 1)%nat = N !! i)
  ∧ drop (2 * m) (blend_raw O N)
    = (if decide (length N < length O)%nat then drop m O else drop m N)
  ∧ blend O N k = take (Z.to_nat k) (dedup_ids (blend_raw O N))
  ∧ blend O N k = take (Z.to_nat k) (first_occurrences (blend_raw O N))
  ∧ NoDup (blend O N k)
  ∧ (∀ l1 x l2, blend_raw O N = l1 ++ x :: l2 → x ∉ l1 →
       ∃ d2, dedup_ids (blend_raw O N) = dedup_ids l1 ++ x :: d2
             ∧ d2 `sublist_of` l2 ∧ x ∉ d2)
  ∧ (∀ env rec_store rec_store' user_id,
       recommendations_offline rec_store user_id k = (Ok O, rec_store') →
       recommendations_online env user_id k = Ok N →
       recommendations env rec_store user_id k
       = (Ok (take (Z.to_nat k) (first_occurrences (blend_raw O N))),
          rec_store'))
  ∧ (∀ A B C X Y, NoDup [A; B; C; X; Y] →
       O = [A; B; C] → N = [X; Y] → k = 3 → blend O N k = [A; X; B])
  ∧ (∀ A B C, NoDup [A; B; C] →
       O = [A; B] → N = [B; C] → 3 <= k → blend O N k = [A; B; C]).
Proof.
  intros m.
  assert (Hblend : blend O N k = take (Z.to_nat k) (dedup_ids (blend_raw O N)))
    by (unfold blend; by rewrite slice_to_nonneg).
  split; [| split; [| split; [done | split; [| split; [| split; [| split;
    [| split]]]]]]].
  - intros i Hi. rewrite blend_raw_alternate.
    pose proof (alternate_length O N) as Hlen.
    destruct (alternate_lookup O N i Hi) as [He Ho].
    rewrite !lookup_app_l by (fold m in Hlen; lia). done.
  - rewrite blend_raw_alternate. fold m.
    rewrite drop_app_length' by (rewrite alternate_length; done).
    case_decide.
    + rewrite (drop_ge N m) by lia. by rewrite app_nil_r.
    + rewrite (drop_ge O m) by lia. done.
  - by rewrite Hblend, dedup_ids_keeps_first.
  - rewrite Hblend. eapply sublist_NoDup;
      [apply dedup_ids_NoDup | apply sublist_take].
  - intros l1 x l2 -> Hx. by apply dedup_ids_split_first.
  - intros env rec_store rec_store' user_id Hoff Hon.
    unfold recommendations. rewrite Hoff, Hon.
    by rewrite Hblend, dedup_ids_keeps_first.
  - intros A B C X Y Hnd -> -> ->.
    assert (HAX : A ≠ X ∧ B ≠ A ∧ B ≠ X).
    { apply NoDup_cons in Hnd as [HA Hnd].
      apply NoDup_cons in Hnd as [HB Hnd].
      set_solver. }
    destruct HAX as (HAX & HBA & HBX).
    rewrite Hblend. unfold blend_raw, interleave_loop, dedup_ids. simpl.
    rewrite decide_False by set_solver. simpl.
    rewrite decide_False by set_solver. simpl.
    rewrite decide_False by set_solver. simpl. done.
  - intros A B C Hnd -> -> Hk3.
    assert (HAB : B ≠ A ∧ C ≠ A ∧ C ≠ B).
    { apply NoDup_cons in Hnd as [HA Hnd].
      apply NoDup_cons in Hnd as [HB Hnd].
      set_solver. }
    destruct HAB as (HBA & HCA & HCB).
    rewrite Hblend. unfold blend_raw, interleave_loop, dedup_ids. simpl.
    rewrite decide_False by set_solver. simpl.
    rewrite decide_False by set_solver. simpl.
    rewrite decide_True by set_solver.
    rewrite decide_False by set_solver.
    by rewrite take_ge by (simpl; lia).
Qed.

Lemma recommendations_blend_alternates_witness :
  blend [1; 2; 3] [7; 8] 3 = [1; 7; 2]
  ∧ blend [1; 2] [2; 3] 10 = [1; 2; 3].
Proof.
  split.
  - destruct (recommendations_blend_alternates [1; 2; 3] [7; 8] 3 ltac:(lia))
      as (_ & _ & _ & _ & _ & _ & _ & Hex & _).
    apply (Hex 1 2 3 7 8); [| reflexivity ..].
    compute_done.
  - destruct (recommendations_blend_alternates [1; 2] [2; 3] 10 ltac:(lia))
      as (_ & _ & _ & _ & _ & _ & _ & _ & Hdup).
    apply (Hdup 1 2 3); [| reflexivity | reflexivity | lia].
    compute_done.
Defined.

(** ** The offline store *)

Section offline.

Implicit Types (self : Recommendations) (frame : list (UserId * ItemId)).

(** The four ways through [get], by what the tables hold for the user. *)
Lemma get_personal_frame self frame user_id k :
  recs_personal self = Some frame ->
  (2 <= length (rows_of frame user_id))%nat ->
  get self user_id k
  = (Ok (slice_to (rows_of frame user_id) k), count_personal self).
Proof.
  intros Hp Hlen. unfold get, get_try, loc. rewrite Hp.
  destruct (rows_of frame user_id) as [|a [|b P]]; simpl in *; try lia.
  reflexivity.
Qed.

Lemma get_personal_row self frame user_id k item_id :
  recs_personal self = Some frame ->
  rows_of frame user_id = [item_id] ->
  get self user_id k = (Ok [], self).
Proof.
  intros Hp Hrow. unfold get, get_try, loc. rewrite Hp, Hrow. reflexivity.
Qed.

Lemma get_absent_default self frame user_id k item_ids :
  recs_personal self = Some frame ->
  rows_of frame user_id = [] ->
  recs_default self = Some item_ids ->
  get self user_id k = (Ok (slice_to item_ids k), count_default self).
Proof.
  intros Hp Hrow Hd. unfold get, get_try, loc. rewrite Hp, Hrow. simpl.
  by rewrite Hd.
Qed.

Lemma get_absent_no_default self frame user_id k :
  recs_personal self = Some frame ->
  rows_of frame user_id = [] ->
  recs_default self = None ->
  get self user_id k = (Raise TypeError, self).
Proof.
  intros Hp Hrow Hd. unfold get, get_try, loc. rewrite Hp, Hrow. simpl.
  by rewrite Hd.
Qed.


(** The [try] block raises nothing but [KeyError] and [AttributeError],
    and which of them (if any) does not depend on [k]. *)
Lemma get_try_cases self user_id k :
  (∃ recs, get_try self user_id k = Ok recs)
  ∨ get_try self user_id k = Raise KeyError
  ∨ get_try self user_id k = Raise AttributeError.
Proof.
  unfold get_try, loc. destruct (recs_personal self) as [frame |]; [| auto].
  destruct (rows_of frame user_id) as [|a [|b P]]; simpl; eauto.
Qed.

(** Whether [get] raises does not depend on [k]. *)
Lemma get_raise_any_k self user_id k k' e :
  (get self user_id k).1 = Raise e -> (get self user_id k').1 = Raise e.
Proof.
  unfold get, get_try, loc. destruct (recs_personal self) as [frame |];
    [| done].
  destruct (rows_of frame user_id) as [|a [|b P]]; simpl; try done.
  destruct (recs_default self); done.
Qed.

End offline.

(** C3.  A user whose personal entry is the single stored item 42 gets the
    empty list from [get], and neither counter moves: the lookup yields a
    row, not a sub-frame, its [item_id] has no [to_list], and the bare
    [except] answers. *)
Theorem get_single_row_user :
  rows_of sample_frame 7 = [42]
  ∧ get sample_store 7 5 = (Ok [], sample_store)
  ∧ get sample_store 7 5 ≠ (Ok [42], count_personal sample_store).
Proof. repeat split; try reflexivity. discriminate. Qed.

(** On a store object that has its personal table loaded and its default
    table not (a state in which the service handles no request), a user
    absent from the personal table makes [get] raise [TypeError] out of its
    [except KeyError] handler. *)
Theorem get_without_default_raises :
  rows_of sample_frame 9 = []
  ∧ recs_default store_without_default = None
  ∧ get store_without_default 9 5 = (Raise TypeError, store_without_default).
Proof. repeat split; reflexivity. Qed.

(** C10.  When the [try] block of [get] raises anything but [KeyError] (the
    bare [except] runs), [get] returns the empty list and the store,
    counters included, is as before.  On every call the tables are
    untouched and the counters either both stay, or exactly one of them
    grows by 1 while the other stays. *)
Theorem get_counters_frame (self : Recommendations) (user_id : UserId)
  (k : Z) :
  ((∃ e, get_try self user_id k = Raise e ∧ e ≠ KeyError) →
     get self user_id k = (Ok [], self))
  ∧ (let self' := (get self user_id k).2 in
     recs_personal self' = recs_personal self
     ∧ recs_default self' = recs_default self
     ∧ ((request_personal_count self' = request_personal_count self
         ∧ request_default_count self' = request_default_count self)
        ∨ (request_personal_count self' = request_personal_count self + 1
           ∧ request_default_count self' = request_default_count self)
        ∨ (request_personal_count self' = request_personal_count self
           ∧ request_default_count self' = request_default_count self + 1))).
Proof.
  split.
  - intros (e & He & Hne). unfold get. rewrite He.
    destruct e; [done | reflexivity ..].
  - unfold get.
    destruct (get_try_cases self user_id k) as [[recs ->] | [-> | ->]];
      cbn; [auto 10 | | auto 10].
    destruct (recs_default self) eqn:Hd; cbn; rewrite ?Hd; auto 10.
Qed.

Lemma get_counters_frame_witness :
  get sample_store 7 5 = (Ok [], sample_store).
Proof.
  destruct (get_counters_frame sample_store 7 5) as [Hcatch _].
  apply Hcatch. exists AttributeError. split; [reflexivity | discriminate].
Defined.

(** ** The online candidate generator *)

Section online.

Implicit Types (x y z : pyfloat).
Implicit Types (p q : ItemId * pyfloat) (l : list (ItemId * pyfloat)).

(** The three comparisons on numbers are those of the rationals. *)
Lemma score_lt_Finite (a b : Q) :
  score_lt (Finite a) (Finite b) = true ↔ (a < b)%Q.
Proof.
  simpl. rewrite Qlt_alt. destruct (a ?= b)%Q; split; congruence.
Qed.

Lemma score_leb_Finite (a b : Q) :
  score_leb (Finite a) (Finite b) = true ↔ (a <= b)%Q.
Proof.
  simpl. rewrite Qle_alt. destruct (a ?= b)%Q; split; congruence.
Qed.

Lemma score_eqb_Finite (a b : Q) :
  score_eqb (Finite a) (Finite b) = true ↔ (a == b)%Q.
Proof.
  simpl. rewrite Qeq_alt. destruct (a ?= b)%Q; split; congruence.
Qed.

Lemma score_lt_leb x y : score_lt x y = true -> score_leb x y = true.
Proof.
  destruct x as [a | | |], y as [b | | |]; try done.
  rewrite score_lt_Finite, score_leb_Finite. lra.
Qed.


Lemma score_leb_nlt x y : score_leb x y = true -> score_lt y x = false.
Proof.
  destruct x as [a | | |], y as [b | | |]; try done.
  intros Hle. apply not_true_is_false. revert Hle.
  rewrite score_lt_Finite, score_leb_Finite. lra.
Qed.

Lemma score_nlt_leb x y :
  is_nan x = false -> is_nan y = false ->
  score_lt x y = false -> score_leb y x = true.
Proof.
  destruct x as [a | | |], y as [b | | |]; try done.
  intros _ _ Hlt. apply not_false_iff_true. revert Hlt.
  rewrite <- !not_true_iff_false, score_lt_Finite, score_leb_Finite. lra.
Qed.

Lemma score_leb_trans x y z :
  score_leb x y = true -> score_leb y z = true -> score_leb x z = true.
Proof.
  destruct x as [a | | |], y as [b | | |], z as [c | | |]; try done.
  rewrite !score_leb_Finite. lra.
Qed.

Lemma score_leb_number x y :
  score_leb x y = true -> is_nan x = false ∧ is_nan y = false.
Proof. by destruct x, y. Qed.

Lemma score_eqb_nlt x y z :
  score_eqb x z = true -> score_eqb y z = true -> score_lt y x = false.
Proof.
  destruct x as [a | | |], y as [b | | |], z as [c | | |]; try done.
  intros Hx Hy. apply not_true_is_false. revert Hx Hy.
  rewrite !score_eqb_Finite, score_lt_Finite. lra.
Qed.

Lemma insert_by_score_Permutation p l : insert_by_score p l ≡ₚ p :: l.
Proof.
  induction l as [|q l IH]; simpl; [done |].
  destruct (score_lt q.2 p.2); [| done].
  rewrite IH. apply Permutation_swap.
Qed.

Lemma sort_by_score_Permutation l : sort_by_score l ≡ₚ l.
Proof.
  induction l as [|p l IH]; simpl; [done |].
  by rewrite insert_by_score_Permutation, IH.
Qed.

(** Where no score is NaN the insertion keeps an ascending list
    ascending. *)
Lemma insert_by_score_sorted p l :
  is_nan p.2 = false -> numbers l.*2 ->
  StronglySorted score_le l -> StronglySorted score_le (insert_by_score p l).
Proof.
  intros Hp. induction l as [|q l IH]; intros Hnum Hs; simpl.
  - repeat constructor.
  - apply Forall_cons in Hnum as [Hq Hnum].
    apply StronglySorted_cons in Hs as [Hql Hs].
    destruct (score_lt q.2 p.2) eqn:Hlt.
    + apply StronglySorted_cons. split; [| by apply IH].
      rewrite insert_by_score_Permutation. constructor; [| done].
      by apply score_lt_leb.
    + apply (score_nlt_leb _ _ Hq Hp) in Hlt.
      apply StronglySorted_cons. split.
      * constructor; [done |].
        eapply Forall_impl; [exact Hql |].
        intros r Hr. unfold score_le in *. by eapply score_leb_trans.
      * apply StronglySorted_cons. done.
Qed.

Lemma sort_by_score_sorted l :
  numbers l.*2 -> StronglySorted score_le (sort_by_score l).
Proof.
  induction l as [|p l IH]; intros Hnum; simpl; [constructor |].
  apply Forall_cons in Hnum as [Hp Hnum].
  apply insert_by_score_sorted; [done | | by apply IH].
  unfold numbers. by rewrite sort_by_score_Permutation.
Qed.

(** Insertion never moves a pair across one it ties with. *)
Lemma insert_by_score_tied s p l :
  filter (tied s) (insert_by_score p l) = filter (tied s) (p :: l).
Proof.
  induction l as [|q l IH]; simpl; [done |].
  destruct (score_lt q.2 p.2) eqn:Hlt; [| done].
  rewrite (filter_cons _ q), IH, !(filter_cons _ p), (filter_cons _ q).
  destruct (decide (tied s p)) as [Hp | Hp]; [| done].
  destruct (decide (tied s q)) as [Hq | Hq]; [| done].
  unfold tied in *.
  rewrite (score_eqb_nlt _ _ _ Hp Hq) in Hlt. done.
Qed.

Lemma sort_by_score_tied s l :
  filter (tied s) (sort_by_score l) = filter (tied s) l.
Proof.
  induction l as [|p l IH]; simpl; [done |].
  by rewrite insert_by_score_tied, !filter_cons, IH.
Qed.

Lemma StronglySorted_reverse_flip {A} (R : relation A) (xs : list A) :
  StronglySorted R xs -> StronglySorted (flip R) (reverse xs).
Proof.
  induction 1 as [|x xs Hs IH Hx]; [constructor |].
  rewrite reverse_cons. apply StronglySorted_app_2; [| done |].
  - intros y z Hy Hz. apply list_elem_of_singleton in Hz as ->.
    rewrite elem_of_reverse in Hy. rewrite Forall_forall in Hx.
    unfold flip. by apply Hx.
  - repeat constructor.
Qed.

Lemma sorted_reverse_Permutation l : sorted_reverse l ≡ₚ l.
Proof.
  unfold sorted_reverse.
  by rewrite reverse_Permutation, sort_by_score_Permutation,
    reverse_Permutation.
Qed.

Lemma sorted_reverse_descending l :
  numbers l.*2 -> StronglySorted score_ge (sorted_reverse l).
Proof.
  intros Hnum. unfold sorted_reverse.
  apply (StronglySorted_reverse_flip score_le), sort_by_score_sorted.
  unfold numbers. by rewrite fmap_reverse, reverse_Permutation.
Qed.

Lemma sorted_reverse_tied s l :
  filter (tied s) (sorted_reverse l) = filter (tied s) l.
Proof.
  unfold sorted_reverse.
  by rewrite filter_reverse, sort_by_score_tied, filter_reverse,
    reverse_involutive.
Qed.

Lemma numbers_zip (items : list ItemId) (scores : list pyfloat) :
  numbers scores -> numbers (zip items scores).*2.
Proof.
  unfold numbers. intros Hnum. revert items.
  induction Hnum as [|s scores Hs Hnum IH]; intros [|i items]; simpl;
    try constructor; [done | apply IH].
Qed.



(** The loop appends the responses seed by seed; it returns exactly when
    every seed's lookup returns. *)
Lemma similar_loop_accumulates env k events items scores acc :
  similar_loop env k events items scores = Ok acc ↔
  ∃ resps,
    Forall2 (λ item_id r, features_store env item_id k = Ok r) events resps
    ∧ acc = (items ++ concat (item_id_2 <$> resps),
             scores ++ concat (score <$> resps)).
Proof.
  revert items scores. induction events as [|e events IH];
    intros items scores; simpl.
  - split.
    + intros [= <-]. exists []. split; [constructor |].
      simpl. by rewrite !app_nil_r.
    + intros (resps & Hall & ->). apply Forall2_nil_inv_l in Hall as ->.
      simpl. by rewrite !app_nil_r.
  - destruct (features_store env e k) as [r | err] eqn:He; simpl.
    + rewrite IH. split.
      * intros (resps & Hall & ->). exists (r :: resps).
        split; [by constructor |]. simpl. by rewrite !app_assoc.
      * intros (resps & Hall & ->).
        apply Forall2_cons_inv_l in Hall as (r' & resps' & Hr & Hall & ->).
        rewrite He in Hr. injection Hr as <-.
        exists resps'. split; [done |]. simpl. by rewrite !app_assoc.
    + split; [done |].
      intros (resps & Hall & _).
      apply Forall2_cons_inv_l in Hall as (r' & resps' & Hr & _).
      rewrite He in Hr. done.
Qed.

(** The generator once both kinds of lookup have returned. *)
Lemma recommendations_online_returns env user_id k events acc :
  events_store env user_id 3 = Ok events ->
  similar_loop env k events [] [] = Ok acc ->
  recommendations_online env user_id k
  = Ok (slice_to (dedup_ids (combine_sorted acc.1 acc.2)) k).
Proof.
  intros Hev Hloop.
  unfold recommendations_online, mbind, result_bind, mret, result_ret.
  rewrite Hev. cbv beta iota. rewrite Hloop. reflexivity.
Qed.

End online.

(** C6 (as amended).  When no accumulated score is NaN, what the online
    generator projects to item ids is the list of accumulated (item, score)
    pairs rearranged, by score descending, and stably: for every score, the
    pairs carrying it appear in the order they were accumulated in.  The
    loop accumulates seed by seed, so on a tie an earlier seed's candidates
    stay ahead of a later seed's.  Two seeds with one candidate each come
    out second one first exactly when the first one's score is the lower;
    at equal scores ([(I1, 0.5)] and [(I2, 0.5)]) they come out as
    [[I1, I2]]. *)
Theorem online_sort_stable (items : list ItemId) (scores : list pyfloat)
  (Hnum : numbers scores) :
  let combined := zip items scores in
  let pairs := sorted_reverse combined in
  combine_sorted items scores = pairs.*1
  ∧ pairs ≡ₚ combined
  ∧ StronglySorted score_ge pairs
  ∧ (∀ s, filter (tied s) pairs = filter (tied s) combined)
  ∧ (∀ env user_id k events,
       events_store env user_id 3 = Ok events →
       similar_loop env k events [] [] = Ok (items, scores) →
       (∃ resps,
          Forall2 (λ item_id r, features_store env item_id k = Ok r)
                  events resps
          ∧ items = concat (item_id_2 <$> resps)
          ∧ scores = concat (score <$> resps))
       ∧ recommendations_online env user_id k
         = Ok (slice_to (dedup_ids pairs.*1) k))
  ∧ (∀ env user_id k S1 S2 I1 I2 s1 s2,
       items = [I1; I2] → scores = [s1; s2] →
       events_store env user_id 3 = Ok [S1; S2] →
       features_store env S1 k = Ok {| item_id_2 := [I1]; score := [s1] |} →
       features_store env S2 k = Ok {| item_id_2 := [I2]; score := [s2] |} →
       I1 ≠ I2 → 2 <= k →
       recommendations_online env user_id k
       = Ok (if score_lt s1 s2 then [I2; I1] else [I1; I2])).
Proof.
  intros combined pairs.
  assert (Hcomb : numbers combined.*2).
  { by apply numbers_zip. }
  split; [done |].
  split; [apply sorted_reverse_Permutation |].
  split; [by apply sorted_reverse_descending |].
  split; [intros s; apply sorted_reverse_tied |].
  split.
  - intros env user_id k events Hev Hloop. split.
    + apply similar_loop_accumulates in Hloop as (resps & Hall & [= -> ->]).
      by exists resps.
    + by rewrite (recommendations_online_returns _ _ _ _ _ Hev Hloop).
  - intros env user_id k S1 S2 I1 I2 s1 s2 -> -> Hev H1 H2 Hne Hk.
    assert (Hloop : similar_loop env k [S1; S2] [] []
                    = Ok ([I1; I2], [s1; s2]))
      by (simpl; rewrite H1; simpl; rewrite H2; reflexivity).
    rewrite (recommendations_online_returns _ _ _ _ _ Hev Hloop).
    cbn [fst snd]. rewrite slice_to_nonneg by lia.
    unfold combine_sorted, sorted_reverse. simpl.
    destruct (score_lt s1 s2); simpl;
      (rewrite dedup_ids_NoDup_id;
       [by rewrite take_ge by (simpl; lia) |]);
      apply NoDup_cons; (split; [set_solver | apply NoDup_singleton]).
Qed.

Lemma online_sort_stable_witness :
  recommendations_online env_tie 1 10 = Ok [1; 2]
  ∧ recommendations_online sample_env 1 10 = Ok [1; 2; 3].
Proof.
  split.
  - destruct (online_sort_stable [1; 2] [Finite (1 # 2); Finite (1 # 2)])
      as (_ & _ & _ & _ & _ & Htwo); [by repeat constructor |].
    rewrite (Htwo env_tie 1 10 10 20 1 2 (Finite (1 # 2)) (Finite (1 # 2)));
      [reflexivity | reflexivity .. | discriminate | lia].
  - destruct (online_sort_stable [1; 2; 3; 1]
                [Finite (1 # 2); Finite (3 # 4); Finite (1 # 2);
                 Finite (9 # 10)])
      as (_ & _ & _ & _ & Hrun & _); [by repeat constructor |].
    destruct (Hrun sample_env 1 10 [10; 20] eq_refl eq_refl) as [_ ->].
    reflexivity.
Defined.

(** C6 as the specification has it fails where a score is NaN: a seed
    answered with the scores 0.5, NaN, 0.9, 0.7 leaves the sort in that
    very order, item 1 (0.5) ahead of item 3 (0.9). *)
Lemma online_sort_nan_not_descending :
  sorted_reverse (zip [1; 2; 3; 4]
                      [Finite (1 # 2); NaN; Finite (9 # 10); Finite (7 # 10)])
  = zip [1; 2; 3; 4]
        [Finite (1 # 2); NaN; Finite (9 # 10); Finite (7 # 10)]
  ∧ recommendations_online env_nan 1 10 = Ok [1; 2; 3; 4]
  ∧ score_lt (Finite (1 # 2)) (Finite (9 # 10)) = true
  ∧ ¬ StronglySorted score_ge
        (sorted_reverse
           (zip [1; 2; 3; 4]
                [Finite (1 # 2); NaN; Finite (9 # 10); Finite (7 # 10)])).
Proof.
  split; [reflexivity |]. split; [reflexivity |]. split; [reflexivity |].
  intros Hs. apply StronglySorted_cons in Hs as [Hhd _].
  apply Forall_cons in Hhd as [_ Hhd].
  apply Forall_cons in Hhd as [Hlow _]. discriminate Hlow.
Qed.

(** C7 (as amended).  A failure of the events lookup is not absorbed: the
    online generator raises it, and so does the blending endpoint once its
    offline half has returned.  The empty list is what a lookup that
    succeeds with no events yields. *)
Theorem online_events_failure_raises (env : Stores) (user_id : UserId)
  (k : Z) :
  (∀ e, events_store env user_id 3 = Raise e →
     recommendations_online env user_id k = Raise e
     ∧ ∀ rec_store recs_offline rec_store',
         recommendations_offline rec_store user_id k
         = (Ok recs_offline, rec_store') →
         recommendations env rec_store user_id k = (Raise e, rec_store'))
  ∧ (events_store env user_id 3 = Ok [] →
     recommendations_online env user_id k = Ok []).
Proof.
  split.
  - intros e He.
    assert (Hon : recommendations_online env user_id k = Raise e)
      by (unfold recommendations_online; rewrite He; reflexivity).
    split; [done |].
    intros rec_store recs_offline rec_store' Hoff.
    unfold recommendations. by rewrite Hoff, Hon.
  - intros He.
    rewrite (recommendations_online_returns env user_id k [] ([], []) He)
      by reflexivity.
    f_equal. apply (slice_to_nil k).
Qed.

Lemma online_events_failure_raises_witness :
  recommendations_online env_events_down 1 10 = Raise RequestError.
Proof.
  destruct (online_events_failure_raises env_events_down 1 10) as [Hraise _].
  apply (Hraise RequestError). reflexivity.
Defined.

(** C7 as the specification has it fails: with the events store down the
    online generator raises rather than returning the empty list. *)
Lemma online_events_failure_not_empty :
  events_store env_events_down 1 3 = Raise RequestError
  ∧ recommendations_online env_events_down 1 10 = Raise RequestError
  ∧ recommendations_online env_events_down 1 10 ≠ Ok [].
Proof. repeat split; try reflexivity. discriminate. Qed.

(** C2.  For [k >= 0] the blend of any two lists has at most [k] items,
    and so has every list the blending endpoint returns. *)
Theorem recommendations_length_le (env : Stores) (rec_store : Recommendations)
  (user_id : UserId) (k : Z) (Hk : 0 <= k) :
  (∀ O N, Z.of_nat (length (blend O N k)) <= k)
  ∧ (∀ recs rec_store',
       recommendations env rec_store user_id k = (Ok recs, rec_store') →
       Z.of_nat (length recs) <= k).
Proof.
  split; [intros O N; by apply blend_length_le |].
  intros recs rec_store'. unfold recommendations.
  destruct (recommendations_offline rec_store user_id k) as [[O | e] st];
    [| done].
  destruct (recommendations_online env user_id k) as [N | e]; [| done].
  intros [= <- _]. by apply blend_length_le.
Qed.

Lemma recommendations_length_le_witness :
  recommendations sample_env sample_store 8 3
  = (Ok [1; 2; 3], count_personal sample_store)
  ∧ Z.of_nat (length [1; 2; 3]) <= 3.
Proof.
  assert (Hrun : recommendations sample_env sample_store 8 3
                 = (Ok [1; 2; 3], count_personal sample_store))
    by reflexivity.
  split; [exact Hrun |].
  destruct (recommendations_length_le sample_env sample_store 8 3 ltac:(lia))
    as [_ Hlen].
  exact (Hlen _ _ Hrun).
Defined.

(** C4 (as amended).  A negative [k] is not rejected anywhere: it is the
    bound of a Python slice, which drops the last [-k] items.  The offline
    [get] answers a user with several stored rows with those rows less the
    last [-k], counting the hit, and raises for negative [k] only where it
    raises for every [k]; the online generator and the blending endpoint
    return their deduplicated sequence less its last [-k] items whenever
    their lookups return. *)
Theorem negative_k_slices (k : Z) (Hk : k < 0) :
  (∀ self frame user_id,
     recs_personal self = Some frame →
     (2 <= length (rows_of frame user_id))%nat →
     let P := rows_of frame user_id in
     recommendations_offline self user_id k
     = (Ok (take (length P - Z.to_nat (- k)) P), count_personal self))
  ∧ (∀ self user_id e k',
       (recommendations_offline self user_id k).1 = Raise e →
       (recommendations_offline self user_id k').1 = Raise e)
  ∧ (∀ env user_id events acc,
       events_store env user_id 3 = Ok events →
       similar_loop env k events [] [] = Ok acc →
       let recs := dedup_ids (combine_sorted acc.1 acc.2) in
       recommendations_online env user_id k
       = Ok (take (length recs - Z.to_nat (- k)) recs))
  ∧ (∀ env rec_store rec_store' user_id O N,
       recommendations_offline rec_store user_id k = (Ok O, rec_store') →
       recommendations_online env user_id k = Ok N →
       let recs := dedup_ids (blend_raw O N) in
       recommendations env rec_store user_id k
       = (Ok (take (length recs - Z.to_nat (- k)) recs), rec_store')).
Proof.
  split; [| split; [| split]].
  - intros self frame user_id Hp Hlen P. unfold recommendations_offline.
    rewrite (get_personal_frame self frame user_id k Hp Hlen).
    by rewrite slice_to_neg.
  - intros self user_id e k'. apply get_raise_any_k.
  - intros env user_id events acc Hev Hloop recs.
    rewrite (recommendations_online_returns _ _ _ _ _ Hev Hloop).
    by rewrite slice_to_neg.
  - intros env rec_store rec_store' user_id O N Hoff Hon recs.
    unfold recommendations. rewrite Hoff, Hon.
    unfold blend. by rewrite slice_to_neg.
Qed.

Lemma negative_k_slices_witness :
  recommendations_offline sample_store 8 (-1)
  = (Ok [1; 2], count_personal sample_store).
Proof.
  destruct (negative_k_slices (-1) ltac:(lia)) as [Hoff _].
  apply (Hoff sample_store sample_frame 8); [reflexivity |].
  vm_compute. lia.
Defined.

(** C4 as the specification has it fails: with [k = -1] each of the three
    endpoints returns a list. *)
Lemma negative_k_not_rejected :
  recommendations_offline sample_store 8 (-1)
  = (Ok [1; 2], count_personal sample_store)
  ∧ recommendations_online sample_env 8 (-1) = Ok [1; 2]
  ∧ recommendations sample_env sample_store 8 (-1)
    = (Ok [1], count_personal sample_store).
Proof. repeat split; reflexivity. Qed.

(** * Further properties of the service *)

(** ** [Recommendations.get] *)

Lemma slice_to_prefix {A : Type} (l : list A) (k : Z) :
  slice_to l k `prefix_of` l.
Proof. unfold slice_to. destruct (k <? 0); apply prefix_take. Qed.

Lemma slice_to_sublist {A : Type} (l : list A) (k : Z) :
  slice_to l k `sublist_of` l.
Proof. unfold slice_to. destruct (k <? 0); apply sublist_take. Qed.

Lemma slice_to_all {A : Type} (l : list A) (k : Z) :
  Z.of_nat (length l) <= k -> slice_to l k = l.
Proof.
  intros Hk. rewrite slice_to_nonneg by lia. apply take_ge. lia.
Qed.

Lemma get_returns_with_default (self : Recommendations)
  (user_id : UserId) (k : Z) (item_ids : list ItemId) :
  recs_default self = Some item_ids ->
  ∃ recs, (get self user_id k).1 = Ok recs.
Proof.
  intros Hd. unfold get.
  destruct (get_try_cases self user_id k) as [[recs ->] | [-> | ->]];
    [eauto | | eauto].
  rewrite Hd. eauto.
Qed.

(** X1.  [get] raises in one situation only: the personal table is loaded,
    it has no row for the user, and the default table is not loaded; the
    exception is then [TypeError].  The value of [k] plays no part. *)
Theorem get_raises_iff (self : Recommendations) (user_id : UserId) (k : Z)
  (e : exn) :
  (get self user_id k).1 = Raise e ↔
  e = TypeError
  ∧ recs_default self = None
  ∧ ∃ frame, recs_personal self = Some frame ∧ rows_of frame user_id = [].
Proof.
  unfold get, get_try, loc.
  destruct (recs_personal self) as [frame |] eqn:Hp.
  - destruct (rows_of frame user_id) as [|a [|b P]] eqn:Hrows; simpl.
    + destruct (recs_default self) eqn:Hd; simpl.
      * split; [done | intros (_ & ? & _); done].
      * split; [intros [= <-]; eauto | intros (-> & _); done].
    + split; [done |]. intros (_ & _ & frame' & [= <-] & Hnil). congruence.
    + split; [done |]. intros (_ & _ & frame' & [= <-] & Hnil). congruence.
  - simpl. split; [done |]. intros (_ & _ & frame' & ? & _). done.
Qed.

(** X2.  What [get] returns is never made up nor reordered: it is an
    initial segment of the user's stored items when the user has any, of
    the default list when the user has none, and empty otherwise; this
    holds for negative [k] too. *)
Theorem get_returns_stored_prefix (self : Recommendations)
  (user_id : UserId) (k : Z) (recs : list ItemId) (self' : Recommendations) :
  get self user_id k = (Ok recs, self') →
  recs = []
  ∨ (∃ frame, recs_personal self = Some frame
       ∧ rows_of frame user_id ≠ []
       ∧ recs `prefix_of` rows_of frame user_id)
  ∨ (∃ frame item_ids, recs_personal self = Some frame
       ∧ rows_of frame user_id = []
       ∧ recs_default self = Some item_ids
       ∧ recs `prefix_of` item_ids).
Proof.
  unfold get, get_try, loc.
  destruct (recs_personal self) as [frame |] eqn:Hp; [| intros [= <- _]; auto].
  destruct (rows_of frame user_id) as [|a [|b P]] eqn:Hrows; simpl.
  - destruct (recs_default self) as [d |] eqn:Hd; [| done].
    intros [= <- _]. right; right. exists frame, d.
    repeat split; try done. apply slice_to_prefix.
  - intros [= <- _]. auto.
  - intros [= <- _]. right; left. exists frame.
    rewrite Hrows. repeat split; try done. apply slice_to_prefix.
Qed.

Lemma get_returns_stored_prefix_witness :
  [1; 2] = []
  ∨ (∃ frame, recs_personal sample_store = Some frame
       ∧ rows_of frame 8 ≠ []
       ∧ [1; 2] `prefix_of` rows_of frame 8)
  ∨ (∃ frame item_ids, recs_personal sample_store = Some frame
       ∧ rows_of frame 8 = []
       ∧ recs_default sample_store = Some item_ids
       ∧ [1; 2] `prefix_of` item_ids).
Proof.
  apply (get_returns_stored_prefix sample_store 8 2 [1; 2]
           (count_personal sample_store)).
  reflexivity.
Defined.

(** X3.  When [k] is at least the length of the list that answers the
    user, [get] returns that list whole: the user's stored items (two rows
    or more), or the default list for a user without rows. *)
Theorem get_large_k_returns_all (self : Recommendations)
  (frame : list (UserId * ItemId)) (user_id : UserId) (k : Z)
  (Hp : recs_personal self = Some frame) :
  ((2 <= length (rows_of frame user_id))%nat →
   Z.of_nat (length (rows_of frame user_id)) <= k →
   get self user_id k = (Ok (rows_of frame user_id), count_personal self))
  ∧ (∀ item_ids,
       rows_of frame user_id = [] →
       recs_default self = Some item_ids →
       Z.of_nat (length item_ids) <= k →
       get self user_id k = (Ok item_ids, count_default self)).
Proof.
  split.
  - intros Hlen Hk. rewrite (get_personal_frame self frame user_id k Hp Hlen).
    by rewrite slice_to_all.
  - intros item_ids Hrows Hd Hk.
    rewrite (get_absent_default self frame user_id k item_ids Hp Hrows Hd).
    by rewrite slice_to_all.
Qed.

Lemma get_large_k_returns_all_witness :
  get sample_store 8 100 = (Ok [1; 2; 3], count_personal sample_store)
  ∧ get sample_store 9 100 = (Ok [5; 6], count_default sample_store).
Proof.
  destruct (get_large_k_returns_all sample_store sample_frame 8 100 eq_refl)
    as [Hpers _].
  destruct (get_large_k_returns_all sample_store sample_frame 9 100 eq_refl)
    as [_ Hdef].
  split.
  - apply Hpers; vm_compute; [lia | discriminate].
  - apply (Hdef [5; 6]); [reflexivity | reflexivity |].
    vm_compute. discriminate.
Defined.

(** ** [dedup_ids] *)

(** X4.  Deduplicating a concatenation: the first part deduplicated, then
    the second part deduplicated without the ids the first part holds. *)
Theorem dedup_ids_app (l1 l2 : list ItemId) :
  dedup_ids (l1 ++ l2)
  = dedup_ids l1 ++ filter (λ x, x ∉ l1) (dedup_ids l2).
Proof.
  unfold dedup_ids. rewrite dedup_walk_app. f_equal.
  rewrite dedup_walk_union. apply list_filter_iff.
  intros x. by rewrite elem_of_list_to_set.
Qed.

(** X5.  [dedup_ids] leaves a list as it is exactly when the list has no
    repeated id. *)
Theorem dedup_ids_fixed_iff (ids : list ItemId) :
  dedup_ids ids = ids ↔ NoDup ids.
Proof.
  split.
  - intros <-. apply dedup_ids_NoDup.
  - apply dedup_ids_NoDup_id.
Qed.

(** X6.  The length of [dedup_ids ids] is the number of distinct ids. *)
Theorem dedup_ids_length_distinct (ids : list ItemId) :
  length (dedup_ids ids) = size (list_to_set ids : gset ItemId).
Proof.
  rewrite <- (size_list_to_set (C := gset ItemId) (dedup_ids ids))
    by apply dedup_ids_NoDup.
  f_equal. apply set_eq. intros x.
  by rewrite !elem_of_list_to_set, dedup_ids_elem.
Qed.

(** ** The blend *)

Lemma blend_raw_nil_l (N : list ItemId) : blend_raw [] N = N.
Proof. rewrite blend_raw_alternate. simpl. by rewrite drop_0. Qed.

Lemma blend_raw_nil_r (O : list ItemId) : blend_raw O [] = O.
Proof.
  rewrite blend_raw_alternate. destruct O; simpl; [done |].
  by rewrite app_nil_r.
Qed.

Lemma blend_raw_cons (o n : ItemId) (O N : list ItemId) :
  blend_raw (o :: O) (n :: N) = o :: n :: blend_raw O N.
Proof. rewrite !blend_raw_alternate. reflexivity. Qed.

Lemma blend_raw_Permutation (O N : list ItemId) : blend_raw O N ≡ₚ O ++ N.
Proof.
  revert N. induction O as [|o O IH]; intros N.
  - by rewrite blend_raw_nil_l.
  - destruct N as [|n N].
    + by rewrite blend_raw_nil_r, app_nil_r.
    + rewrite blend_raw_cons, IH. simpl. constructor.
      apply Permutation_middle.
Qed.

(** X7.  Before deduplication the blended sequence holds the items of both
    lists and nothing else, each as often as the lists hold it, and keeps
    the offline items in their order and the online items in theirs. *)
Theorem blend_raw_keeps_both (O N : list ItemId) :
  blend_raw O N ≡ₚ O ++ N
  ∧ O `sublist_of` blend_raw O N
  ∧ N `sublist_of` blend_raw O N.
Proof.
  split; [apply blend_raw_Permutation |].
  revert N. induction O as [|o O IH]; intros N.
  - rewrite blend_raw_nil_l. split; [apply sublist_nil_l | done].
  - destruct N as [|n N].
    + rewrite blend_raw_nil_r. split; [done | apply sublist_nil_l].
    + rewrite blend_raw_cons. destruct (IH N) as (HO & HN). split.
      * apply sublist_skip, sublist_cons, HO.
      * apply sublist_cons, sublist_skip, HN.
Qed.

(** X8.  The blend has no repeated item, every item of it comes from one
    of the two lists, and once [k] reaches the two lengths together it
    holds every item of either list. *)
Theorem blend_NoDup_members (O N : list ItemId) (k : Z) :
  NoDup (blend O N k)
  ∧ (∀ x, x ∈ blend O N k → x ∈ O ∨ x ∈ N)
  ∧ (Z.of_nat (length O + length N) <= k →
     ∀ x, x ∈ blend O N k ↔ x ∈ O ∨ x ∈ N).
Proof.
  pose proof (blend_raw_Permutation O N) as Hperm.
  assert (Hmem : ∀ x, x ∈ dedup_ids (blend_raw O N) ↔ x ∈ O ∨ x ∈ N).
  { intros x. by rewrite dedup_ids_elem, Hperm, elem_of_app. }
  pose proof (slice_to_sublist (dedup_ids (blend_raw O N)) k) as Hpre.
  fold (blend O N k) in Hpre.
  split; [| split].
  - eapply sublist_NoDup; [apply dedup_ids_NoDup | exact Hpre].
  - intros x Hx. apply Hmem. eapply elem_of_sublist; [exact Hx | exact Hpre].
  - intros Hk x. unfold blend. rewrite slice_to_all; [apply Hmem |].
    pose proof (dedup_ids_length (blend_raw O N)) as Hlen.
    apply Permutation_length in Hperm. rewrite length_app in Hperm. lia.
Qed.

(** X9.  With one side empty the blend is the other side deduplicated and
    cut to [k]; with both empty it is empty. *)
Theorem blend_one_side_empty (L : list ItemId) (k : Z) :
  blend L [] k = slice_to (dedup_ids L) k
  ∧ blend [] L k = slice_to (dedup_ids L) k
  ∧ blend [] [] k = [].
Proof.
  unfold blend. rewrite blend_raw_nil_r, !blend_raw_nil_l.
  repeat split. apply (slice_to_nil k).
Qed.

(** X10.  The offline list leads: for [k >= 1] the blend starts with the
    first offline item (with the first online item when there is no offline
    one), and for [k >= 2] the first online item comes second unless it is
    that same item. *)
Theorem blend_head (o n : ItemId) (O N : list ItemId) (k : Z)
  (Hk : 1 <= k) :
  head (blend (o :: O) N k) = Some o
  ∧ head (blend [] (n :: N) k) = Some n
  ∧ (2 <= k → o ≠ n → take 2 (blend (o :: O) (n :: N) k) = [o; n]).
Proof.
  assert (Hhead : ∀ x l, head (slice_to (dedup_ids (x :: l)) k) = Some x).
  { intros x l. rewrite slice_to_nonneg by lia.
    replace (Z.to_nat k) with (S (Z.to_nat (k - 1))) by lia.
    unfold dedup_ids. simpl. rewrite decide_False by set_solver. done. }
  split; [| split].
  - unfold blend. destruct N as [|n' N].
    + rewrite blend_raw_nil_r. apply Hhead.
    + rewrite blend_raw_cons. apply Hhead.
  - unfold blend. rewrite blend_raw_nil_l. apply Hhead.
  - intros Hk2 Hne. unfold blend. rewrite blend_raw_cons.
    rewrite slice_to_nonneg by lia.
    replace (Z.to_nat k) with (S (S (Z.to_nat (k - 2)))) by lia.
    unfold dedup_ids. simpl. rewrite decide_False by set_solver. simpl.
    rewrite decide_False by set_solver. simpl. by rewrite take_0.
Qed.

Lemma blend_head_witness :
  head (blend [1; 2; 3] [7; 8] 3) = Some 1
  ∧ take 2 (blend [1; 2; 3] [7; 8] 3) = [1; 7].
Proof.
  destruct (blend_head 1 7 [2; 3] [8] 3 ltac:(lia)) as (Hfirst & _ & Hsecond).
  split; [exact Hfirst |].
  apply Hsecond; [lia | discriminate].
Defined.

(** ** The blending endpoint *)

(** X11.  The blending endpoint leaves the store exactly as one offline
    call does, whatever the online half does: a hit is counted even when
    the online lookup then raises; and an exception of the offline half is
    the endpoint's own. *)
Theorem recommendations_store_effect (env : Stores)
  (rec_store : Recommendations) (user_id : UserId) (k : Z) :
  (recommendations env rec_store user_id k).2
  = (recommendations_offline rec_store user_id k).2
  ∧ (∀ e, (recommendations_offline rec_store user_id k).1 = Raise e →
          (recommendations env rec_store user_id k).1 = Raise e)
  ∧ (∀ e recs, (recommendations_offline rec_store user_id k).1 = Ok recs →
          recommendations_online env user_id k = Raise e →
          (recommendations env rec_store user_id k).1 = Raise e).
Proof.
  unfold recommendations.
  destruct (recommendations_offline rec_store user_id k) as [[O | e'] st];
    simpl.
  - destruct (recommendations_online env user_id k) as [N | e'']; simpl.
    + repeat split; [done |]. by intros e recs _ ?.
    + repeat split; [done |]. by intros e recs _ [= ->].
  - repeat split; [done |]. by intros e recs ?.
Qed.

(** ** The online candidate generator *)

Lemma recommendations_online_inv (env : Stores) (user_id : UserId) (k : Z)
  (recs : list ItemId) :
  recommendations_online env user_id k = Ok recs ->
  ∃ events acc,
    events_store env user_id 3 = Ok events
    ∧ similar_loop env k events [] [] = Ok acc
    ∧ recs = slice_to (dedup_ids (combine_sorted acc.1 acc.2)) k.
Proof.
  intros Hrun.
  unfold recommendations_online, mbind, result_bind, mret, result_ret in Hrun.
  destruct (events_store env user_id 3) as [events | e]; [| done].
  destruct (similar_loop env k events [] []) as [acc | e] eqn:Hloop;
    [| done].
  injection Hrun as <-. exists events, acc. repeat split. exact Hloop.
Qed.

Lemma fst_zip_take {A B : Type} (l : list A) (l' : list B) :
  (zip l l').*1 = take (length l') l.
Proof.
  revert l'. induction l as [|a l IH]; intros [|b l']; simpl; try done.
  by rewrite IH.
Qed.

Lemma combine_sorted_Permutation (items : list ItemId)
  (scores : list pyfloat) :
  combine_sorted items scores ≡ₚ take (length scores) items.
Proof.
  unfold combine_sorted.
  by rewrite sorted_reverse_Permutation, fst_zip_take.
Qed.

(** X12.  Every list the online generator returns has no repeated item,
    has at most [k] items when [k >= 0], and holds only items that the
    similarity lookup of one of the user's events answered with. *)
Theorem recommendations_online_sound (env : Stores) (user_id : UserId)
  (k : Z) (recs : list ItemId) :
  recommendations_online env user_id k = Ok recs →
  NoDup recs
  ∧ (0 <= k → Z.of_nat (length recs) <= k)
  ∧ (∀ x, x ∈ recs →
       ∃ events seed r,
         events_store env user_id 3 = Ok events
         ∧ seed ∈ events
         ∧ features_store env seed k = Ok r
         ∧ x ∈ item_id_2 r).
Proof.
  intros Hrun.
  apply recommendations_online_inv in Hrun as (events & acc & Hev & Hloop & ->).
  pose proof (slice_to_sublist (dedup_ids (combine_sorted acc.1 acc.2)) k)
    as Hsub.
  split; [| split].
  - eapply sublist_NoDup; [apply dedup_ids_NoDup | exact Hsub].
  - intros Hk. by apply slice_to_length_le.
  - intros x Hx.
    eapply elem_of_sublist in Hx; [| exact Hsub].
    rewrite dedup_ids_elem, combine_sorted_Permutation in Hx.
    eapply elem_of_sublist in Hx; [| apply sublist_take].
    apply similar_loop_accumulates in Hloop as (resps & Hall & ->).
    simpl in Hx. apply list_elem_of_In, in_concat in Hx as (col & Hcol & Hxcol).
    apply list_elem_of_In in Hcol, Hxcol.
    apply list_elem_of_fmap in Hcol as (r & -> & Hr).
    apply list_elem_of_lookup in Hr as (i & Hi).
    destruct (Forall2_lookup_r _ _ _ _ _ Hall Hi) as (seed & Hseed & Hresp).
    exists events, seed, r. repeat split; try done.
    apply list_elem_of_lookup. by exists i.
Qed.

Lemma recommendations_online_sound_witness :
  NoDup [1; 2; 3]
  ∧ (0 <= 10 → Z.of_nat (length [1; 2; 3]) <= 10)
  ∧ (∀ x, x ∈ [1; 2; 3] →
       ∃ events seed r,
         events_store sample_env 1 3 = Ok events
         ∧ seed ∈ events
         ∧ features_store sample_env seed 10 = Ok r
         ∧ x ∈ item_id_2 r).
Proof.
  apply (recommendations_online_sound sample_env 1 10 [1; 2; 3]).
  reflexivity.
Defined.

Lemma similar_loop_raises (env : Stores) (k : Z)
  (before after : list ItemId) (seed : ItemId) (e : exn)
  (items : list ItemId) (scores : list pyfloat) :
  (∀ s, s ∈ before -> ∃ r, features_store env s k = Ok r) ->
  features_store env seed k = Raise e ->
  similar_loop env k (before ++ seed :: after) items scores = Raise e.
Proof.
  revert items scores. induction before as [|s before IH];
    intros items scores Hbefore Hseed; simpl.
  - by rewrite Hseed.
  - destruct (Hbefore s) as [r Hr]; [by left |].
    rewrite Hr. simpl. apply IH; [| done].
    intros s' Hs'. apply Hbefore. by right.
Qed.

(** X13.  A similarity lookup that raises is not skipped: when the lookups
    for the events before it return, the online generator raises that very
    exception, and the candidates of the other events are lost with it. *)
Theorem recommendations_online_seed_failure (env : Stores)
  (user_id : UserId) (k : Z) (before after : list ItemId) (seed : ItemId)
  (e : exn) :
  events_store env user_id 3 = Ok (before ++ seed :: after) →
  (∀ s, s ∈ before → ∃ r, features_store env s k = Ok r) →
  features_store env seed k = Raise e →
  recommendations_online env user_id k = Raise e.
Proof.
  intros Hev Hbefore Hseed.
  unfold recommendations_online, mbind, result_bind.
  rewrite Hev. cbv beta iota.
  by rewrite (similar_loop_raises env k before after seed e [] []).
Qed.

Lemma recommendations_online_seed_failure_witness :
  recommendations_online env_seed_down 1 10 = Raise RequestError.
Proof.
  apply (recommendations_online_seed_failure env_seed_down 1 10 [10] [] 20).
  - reflexivity.
  - intros s Hs. apply list_elem_of_singleton in Hs as ->.
    eexists. reflexivity.
  - reflexivity.
Defined.

Lemma sort_by_score_fixed (l : list (ItemId * pyfloat)) :
  StronglySorted score_le l -> sort_by_score l = l.
Proof.
  induction 1 as [|p l Hs IH Hp]; simpl; [done |].
  rewrite IH. destruct l as [|q l]; simpl; [done |].
  apply Forall_cons in Hp as [Hpq _].
  unfold score_le in Hpq. by rewrite (score_leb_nlt _ _ Hpq).
Qed.

Lemma sorted_reverse_fixed (l : list (ItemId * pyfloat)) :
  StronglySorted score_ge l -> sorted_reverse l = l.
Proof.
  intros Hs. unfold sorted_reverse.
  rewrite sort_by_score_fixed; [apply reverse_involutive |].
  apply (StronglySorted_reverse_flip score_ge), Hs.
Qed.


Lemma zip_descending (items : list ItemId) (scores : list pyfloat) :
  StronglySorted (λ a b, score_leb b a = true) scores ->
  StronglySorted score_ge (zip items scores).
Proof.
  intros Hs. revert items.
  induction Hs as [|a scores Hs IH Ha]; intros [|i items]; simpl;
    try constructor.
  - apply IH.
  - apply Forall_forall. intros [j b] Hjb.
    apply elem_of_zip_r in Hjb. rewrite Forall_forall in Ha.
    unfold score_ge. simpl. by apply Ha.
Qed.

(** X15.  With a single event whose similar items come with at least as
    many scores as items, in descending score order, the online generator
    returns those items in the order received, deduplicated and cut to
    [k]. *)
Theorem recommendations_online_one_seed (env : Stores) (user_id : UserId)
  (k : Z) (seed : ItemId) (r : SimilarItems) :
  events_store env user_id 3 = Ok [seed] →
  features_store env seed k = Ok r →
  (length (item_id_2 r) <= length (score r))%nat →
  StronglySorted (λ a b, score_leb b a = true) (score r) →
  recommendations_online env user_id k
  = Ok (slice_to (dedup_ids (item_id_2 r)) k).
Proof.
  intros Hev Hr Hlen Hs.
  rewrite (recommendations_online_returns env user_id k [seed]
             (item_id_2 r, score r) Hev)
    by (simpl; rewrite Hr; reflexivity).
  cbn [fst snd]. unfold combine_sorted.
  rewrite sorted_reverse_fixed by by apply zip_descending.
  by rewrite fst_zip by done.
Qed.

Lemma recommendations_online_one_seed_witness :
  recommendations_online env_one_seed 1 10 = Ok [1; 2].
Proof.
  apply (recommendations_online_one_seed env_one_seed 1 10 10
           {| item_id_2 := [1; 2; 1];
              score := [Finite (9 # 10); Finite (1 # 2); Finite (1 # 4)] |}).
  - reflexivity.
  - reflexivity.
  - simpl. lia.
  - repeat constructor; discriminate.
Defined.

(** X16.  Items and scores are paired by position and the longer column is
    cut: what is sorted and returned are the first [len(scores)] items, so
    an item without a score of its own is dropped without an error. *)
Theorem combine_sorted_truncates (items : list ItemId)
  (scores : list pyfloat) :
  combine_sorted items scores ≡ₚ take (length scores) items
  ∧ length (combine_sorted items scores)
    = Nat.min (length items) (length scores)
  ∧ (∀ x, x ∈ combine_sorted items scores → x ∈ items).
Proof.
  pose proof (combine_sorted_Permutation items scores) as Hperm.
  split; [done |]. split.
  - rewrite Hperm, length_take. lia.
  - intros x Hx. rewrite Hperm in Hx.
    eapply elem_of_sublist; [exact Hx | apply sublist_take].
Qed.

(** ** Loading, serving and reporting *)

(** X17.  [load] touches nothing but the table it is called for: the
    counters and the other table stay; when the file cannot be read the
    store is as before and the exception is [load]'s; and a table loaded
    twice is the one loaded last. *)
Theorem load_frame (self : Recommendations) (type : rec_type)
  (read_parquet : result (parquet type)) :
  request_personal_count (load self type read_parquet).2
  = request_personal_count self
  ∧ request_default_count (load self type read_parquet).2
    = request_default_count self
  ∧ match type with
    | Personal => recs_default (load self type read_parquet).2
                  = recs_default self
    | Default => recs_personal (load self type read_parquet).2
                 = recs_personal self
    end
  ∧ (∀ e, read_parquet = Raise e →
          load self type read_parquet = (Raise e, self))
  ∧ (∀ frame, load (load self type read_parquet).2 type (Ok frame)
              = load self type (Ok frame)).
Proof.
  destruct type, read_parquet as [rows | e']; simpl;
    repeat split; try done; by intros e [= ->].
Qed.

Lemma lifespan_startup_loaded (files : Files) (rec_store : Recommendations)
  (prows : list (UserId * ItemId * Z)) (drows : list (ItemId * Z)) :
  final_recommendations_feat files = Ok prows ->
  top_recs files = Ok drows ->
  lifespan_startup files rec_store
  = (Ok (),
     {| recs_personal := Some (prows.*1); recs_default := Some (drows.*1);
        request_personal_count := request_personal_count rec_store;
        request_default_count := request_default_count rec_store |}).
Proof. intros Hp Hd. unfold lifespan_startup. by rewrite Hp, Hd. Qed.

(** The rows of a user in the indexed frame are the user's rows of the
    file. *)
Lemma rows_of_indexed (prows : list (UserId * ItemId * Z))
  (user_id : UserId) :
  rows_of (prows.*1) user_id
  = (filter (λ row, row.1.1 = user_id) prows).*1.*2.
Proof.
  unfold rows_of. f_equal.
  induction prows as [|row rows IH]; [done |].
  rewrite fmap_cons.
  destruct (decide (row.1.1 = user_id)) as [Heq | Hne].
  - rewrite !filter_cons_True by done. simpl. f_equal. apply IH.
  - rewrite !filter_cons_False by done. apply IH.
Qed.

(** X18.  After a start-up that read both files, no offline request can
    raise, whatever the user and [k]; a user with several rows in the
    personal file is answered with the items of those rows in file order,
    cut to [k], and a user without rows with the items of the default file
    in file order, cut to [k]. *)
Theorem lifespan_startup_serves (files : Files)
  (prows : list (UserId * ItemId * Z)) (drows : list (ItemId * Z))
  (Hp : final_recommendations_feat files = Ok prows)
  (Hd : top_recs files = Ok drows) :
  ∃ rec_store,
    lifespan_startup files init = (Ok (), rec_store)
    ∧ (∀ user_id k, ∃ recs,
         (recommendations_offline rec_store user_id k).1 = Ok recs)
    ∧ (∀ user_id k,
         let stored := (filter (λ row, row.1.1 = user_id) prows).*1.*2 in
         (2 <= length stored)%nat →
         (recommendations_offline rec_store user_id k).1
         = Ok (slice_to stored k))
    ∧ (∀ user_id k,
         (filter (λ row, row.1.1 = user_id) prows) = [] →
         (recommendations_offline rec_store user_id k).1
         = Ok (slice_to (drows.*1) k)).
Proof.
  eexists. split; [by apply lifespan_startup_loaded |].
  set (st := {| recs_personal := Some (prows.*1);
                recs_default := Some (drows.*1);
                request_personal_count := request_personal_count init;
                request_default_count := request_default_count init |}).
  pose proof (rows_of_indexed prows) as Hrows.
  unfold recommendations_offline. split; [| split].
  - intros user_id k. by apply (get_returns_with_default st _ _ (drows.*1)).
  - intros user_id k. cbv zeta. rewrite <- Hrows. intros Hlen.
    by rewrite (get_personal_frame st (prows.*1) user_id k eq_refl Hlen).
  - intros user_id k Hnone.
    rewrite (get_absent_default st (prows.*1) user_id k (drows.*1));
      [done | done | | done].
    by rewrite Hrows, Hnone.
Qed.

Lemma lifespan_startup_serves_witness :
  ∃ rec_store,
    lifespan_startup sample_files init = (Ok (), rec_store)
    ∧ (recommendations_offline rec_store 8 2).1 = Ok [1; 2]
    ∧ (recommendations_offline rec_store 9 1).1 = Ok [5].
Proof.
  destruct (lifespan_startup_serves sample_files
              [(7, 42, 1); (8, 1, 1); (8, 2, 2); (8, 3, 3)]
              [(5, 1); (6, 2)] eq_refl eq_refl)
    as (rec_store & Hstart & _ & Hpers & Hdef).
  exists rec_store. split; [exact Hstart |]. split.
  - apply (Hpers 8 2). vm_compute. lia.
  - apply (Hdef 9 1). reflexivity.
Defined.

(** X19.  The start-up fails exactly when a file cannot be read: with the
    exception of the personal file when that one fails (the default file
    is then not loaded), otherwise with that of the default file; the
    application then reports nothing. *)
Theorem lifespan_startup_fails (files : Files) (e : exn) :
  ((lifespan_startup files init).1 = Raise e ↔
   final_recommendations_feat files = Raise e
   ∨ (∃ prows, final_recommendations_feat files = Ok prows)
     ∧ top_recs files = Raise e)
  ∧ (final_recommendations_feat files = Raise e →
     lifespan_startup files init = (Raise e, init))
  ∧ ((lifespan_startup files init).1 = Raise e →
     ∀ requests, lifespan files requests = Raise e).
Proof.
  unfold lifespan, lifespan_startup.
  destruct (final_recommendations_feat files) as [prows | e1]; simpl.
  - destruct (top_recs files) as [drows | e2]; simpl.
    + repeat split; try done. intros [? | [_ ?]]; done.
    + repeat split; try done.
      * intros [= ->]. right. eauto.
      * intros [? | [_ [= ->]]]; done.
      * by intros [= ->].
  - repeat split; try done.
    + intros [= ->]. by left.
    + intros [[= ->] | [[? ?] _]]; done.
    + by intros [= ->].
    + by intros [= ->].
Qed.

(** The store after one request, tables loaded: the counter of the branch
    that answered has grown by one. *)
Lemma get_store_loaded (self : Recommendations)
  (frame : list (UserId * ItemId)) (item_ids : list ItemId)
  (user_id : UserId) (k : Z) :
  recs_personal self = Some frame ->
  recs_default self = Some item_ids ->
  (get self user_id k).2
  = {| recs_personal := Some frame; recs_default := Some item_ids;
       request_personal_count :=
         request_personal_count self
         + (if bool_decide (2 <= length (rows_of frame user_id))%nat
            then 1 else 0);
       request_default_count :=
         request_default_count self
         + (if bool_decide (rows_of frame user_id = []) then 1 else 0) |}.
Proof.
  intros Hp Hd. destruct self as [p d cp cd]. simpl in Hp, Hd. subst p d.
  unfold get, get_try, loc. simpl.
  destruct (rows_of frame user_id) as [|a [|b P]]; simpl;
    rewrite ?bool_decide_eq_true_2, ?bool_decide_eq_false_2
      by (simpl; first [lia | done]);
    unfold count_personal, count_default; simpl; f_equal; lia.
Qed.

Lemma recommendations_store (env : Stores) (rec_store : Recommendations)
  (user_id : UserId) (k : Z) :
  (recommendations env rec_store user_id k).2 = (get rec_store user_id k).2.
Proof.
  unfold recommendations, recommendations_offline.
  destruct (get rec_store user_id k) as [[O | e] st]; [| done].
  by destruct (recommendations_online env user_id k).
Qed.

Lemma handle_store_loaded (env : Stores) (self : Recommendations)
  (frame : list (UserId * ItemId)) (item_ids : list ItemId) (req : request) :
  recs_personal self = Some frame ->
  recs_default self = Some item_ids ->
  (handle env self req).2
  = {| recs_personal := Some frame; recs_default := Some item_ids;
       request_personal_count :=
         request_personal_count self
         + (if hits_personal frame req then 1 else 0);
       request_default_count :=
         request_default_count self
         + (if hits_default frame req then 1 else 0) |}.
Proof.
  intros Hp Hd. destruct req as [u k | u k | u k]; simpl.
  - by apply get_store_loaded.
  - destruct self as [p d cp cd]. simpl in *. subst. f_equal; lia.
  - rewrite recommendations_store. by apply get_store_loaded.
Qed.

Lemma serve_loaded (rec_store : Recommendations)
  (frame : list (UserId * ItemId)) (item_ids : list ItemId)
  (requests : list (Stores * request)) :
  recs_personal rec_store = Some frame ->
  recs_default rec_store = Some item_ids ->
  serve rec_store requests
  = {| recs_personal := Some frame; recs_default := Some item_ids;
       request_personal_count :=
         request_personal_count rec_store
         + Z.of_nat (length (filter (λ r, hits_personal frame r.2) requests));
       request_default_count :=
         request_default_count rec_store
         + Z.of_nat (length (filter (λ r, hits_default frame r.2) requests))
    |}.
Proof.
  revert rec_store. induction requests as [|[env req] requests IH];
    intros rec_store Hp Hd.
  - destruct rec_store as [p d cp cd]. simpl in *. subst.
    unfold serve. simpl. f_equal; lia.
  - unfold serve. simpl. fold (serve (handle env rec_store req).2 requests).
    rewrite (handle_store_loaded env rec_store frame item_ids req Hp Hd).
    rewrite IH by done. simpl.
    rewrite !filter_cons. simpl.
    destruct (hits_personal frame req), (hits_default frame req); simpl;
      f_equal; lia.
Qed.

(** X20.  With both tables loaded, any run of requests to the three routes
    leaves the tables as they are and moves the counters by exact amounts:
    the personal counter by the number of offline or blended requests for
    users with several stored rows, the default counter by the number of
    those for users with no row; online requests and requests for users
    with a single row count nowhere. *)
Theorem serve_accounting (rec_store : Recommendations)
  (frame : list (UserId * ItemId)) (item_ids : list ItemId)
  (requests : list (Stores * request))
  (Hp : recs_personal rec_store = Some frame)
  (Hd : recs_default rec_store = Some item_ids) :
  recs_personal (serve rec_store requests) = Some frame
  ∧ recs_default (serve rec_store requests) = Some item_ids
  ∧ request_personal_count (serve rec_store requests)
    = request_personal_count rec_store
      + Z.of_nat (length (filter (λ r, hits_personal frame r.2) requests))
  ∧ request_default_count (serve rec_store requests)
    = request_default_count rec_store
      + Z.of_nat (length (filter (λ r, hits_default frame r.2) requests)).
Proof. by rewrite (serve_loaded rec_store frame item_ids requests Hp Hd). Qed.

Lemma serve_accounting_witness :
  request_personal_count
    (serve sample_store
       [(sample_env, PostRecommendations 8 None);
        (sample_env, PostRecommendationsOffline 7 (Some 3));
        (sample_env, PostRecommendationsOnline 8 None);
        (env_events_down, PostRecommendations 8 (Some 5));
        (sample_env, PostRecommendationsOffline 9 (Some 1))]) = 2
  ∧ request_default_count
      (serve sample_store
         [(sample_env, PostRecommendations 8 None);
          (sample_env, PostRecommendationsOffline 7 (Some 3));
          (sample_env, PostRecommendationsOnline 8 None);
          (env_events_down, PostRecommendations 8 (Some 5));
          (sample_env, PostRecommendationsOffline 9 (Some 1))]) = 1.
Proof.
  destruct (serve_accounting sample_store sample_frame [5; 6]
              [(sample_env, PostRecommendations 8 None);
               (sample_env, PostRecommendationsOffline 7 (Some 3));
               (sample_env, PostRecommendationsOnline 8 None);
               (env_events_down, PostRecommendations 8 (Some 5));
               (sample_env, PostRecommendationsOffline 9 (Some 1))]
              eq_refl eq_refl) as (_ & _ & Hpers & Hdef).
  split; [rewrite Hpers | rewrite Hdef]; reflexivity.
Defined.

Lemma handle_step (env : Stores) (self : Recommendations) (req : request) :
  recs_personal (handle env self req).2 = recs_personal self
  ∧ recs_default (handle env self req).2 = recs_default self
  ∧ request_personal_count self <= request_personal_count (handle env self req).2
  ∧ request_default_count self <= request_default_count (handle env self req).2
  ∧ request_personal_count (handle env self req).2
    + request_default_count (handle env self req).2
    <= request_personal_count self + request_default_count self + 1.
Proof.
  assert (Hget : ∀ u k,
    recs_personal (get self u k).2 = recs_personal self
    ∧ recs_default (get self u k).2 = recs_default self
    ∧ request_personal_count self <= request_personal_count (get self u k).2
    ∧ request_default_count self <= request_default_count (get self u k).2
    ∧ request_personal_count (get self u k).2
      + request_default_count (get self u k).2
      <= request_personal_count self + request_default_count self + 1).
  { intros u k. unfold get.
    destruct (get_try_cases self u k) as [[recs ->] | [-> | ->]]; simpl;
      [repeat split; lia | | repeat split; lia].
    destruct (recs_default self) eqn:Hd; simpl; rewrite ?Hd;
      repeat split; lia. }
  destruct req as [u k | u k | u k]; simpl.
  - apply Hget.
  - repeat split; lia.
  - rewrite recommendations_store. apply Hget.
Qed.

(** X21.  In any state of the store, loaded or not, a run of requests never
    changes a table and never lowers a counter, and the two counters
    together grow by at most one per request. *)
Theorem serve_invariant (rec_store : Recommendations)
  (requests : list (Stores * request)) :
  recs_personal (serve rec_store requests) = recs_personal rec_store
  ∧ recs_default (serve rec_store requests) = recs_default rec_store
  ∧ request_personal_count rec_store
    <= request_personal_count (serve rec_store requests)
  ∧ request_default_count rec_store
    <= request_default_count (serve rec_store requests)
  ∧ request_personal_count (serve rec_store requests)
    + request_default_count (serve rec_store requests)
    <= request_personal_count rec_store + request_default_count rec_store
       + Z.of_nat (length requests).
Proof.
  revert rec_store. induction requests as [|[env req] requests IH];
    intros rec_store.
  - unfold serve. simpl. repeat split; lia.
  - unfold serve. simpl. fold (serve (handle env rec_store req).2 requests).
    destruct (IH (handle env rec_store req).2) as (Hp & Hd & H1 & H2 & H3).
    destruct (handle_step env rec_store req) as (Hp' & Hd' & H1' & H2' & H3').
    rewrite Hp, Hd. repeat split; try done; lia.
Qed.

(** X22.  A whole run of the application whose two files can be read ends
    with [stats] logging three lines: the heading, then the personal
    counter and the default counter, which stand at the numbers of requests
    that were answered from the personal table and from the default
    table. *)
Theorem lifespan_report (files : Files)
  (prows : list (UserId * ItemId * Z)) (drows : list (ItemId * Z))
  (requests : list (Stores * request))
  (Hp : final_recommendations_feat files = Ok prows)
  (Hd : top_recs files = Ok drows) :
  lifespan files requests
  = Ok [ "Stats for recommendations";
         stats_line "request_personal_count"
           (Z.of_nat
              (length (filter (λ r, hits_personal (prows.*1) r.2) requests)));
         stats_line "request_default_count"
           (Z.of_nat
              (length (filter (λ r, hits_default (prows.*1) r.2) requests))) ].
Proof.
  unfold lifespan.
  rewrite (lifespan_startup_loaded files init prows drows Hp Hd).
  rewrite (serve_loaded
             {| recs_personal := Some (prows.*1);
                recs_default := Some (drows.*1);
                request_personal_count := request_personal_count init;
                request_default_count := request_default_count init |}
             (prows.*1) (drows.*1) requests eq_refl eq_refl).
  reflexivity.
Qed.

Lemma lifespan_report_witness :
  lifespan sample_files
    [(sample_env, PostRecommendations 8 None);
     (sample_env, PostRecommendationsOffline 7 (Some 3));
     (sample_env, PostRecommendationsOffline 9 (Some 1))]
  = Ok [ "Stats for recommendations";
         "request_personal_count         1 ";
         "request_default_count          1 " ].
Proof.
  rewrite (lifespan_report sample_files
             [(7, 42, 1); (8, 1, 1); (8, 2, 2); (8, 3, 3)]
             [(5, 1); (6, 2)] _ eq_refl eq_refl).
  reflexivity.
Defined.

Lemma string_app_space_inj (s1 s2 : string) :
  s1 +:+ " " = s2 +:+ " " -> s1 = s2.
Proof.
  revert s2. induction s1 as [|a s1 IH]; intros [|b s2] Heq;
    cbv [String.append] in Heq; fold String.append in Heq.
  - done.
  - injection Heq as _ Heq. destruct s2; discriminate.
  - injection Heq as _ Heq. destruct s1; discriminate.
  - injection Heq as -> Heq. f_equal. by apply IH.
Qed.

Lemma stats_line_inj (name : string) (v1 v2 : Z) :
  stats_line name v1 = stats_line name v2 -> v1 = v2.
Proof.
  unfold stats_line. intros Heq.
  do 3 apply String.app_inj in Heq.
  apply string_app_space_inj in Heq.
  by apply (inj pretty) in Heq.
Qed.

(** X23.  The report of [stats] tells the two counters and nothing else:
    two stores are reported alike exactly when their counters agree. *)
Theorem stats_determines_counters (s1 s2 : Recommendations) :
  stats s1 = stats s2 ↔
  request_personal_count s1 = request_personal_count s2
  ∧ request_default_count s1 = request_default_count s2.
Proof.
  unfold stats. split.
  - intros Heq. split.
    + apply (stats_line_inj "request_personal_count"). congruence.
    + apply (stats_line_inj "request_default_count"). congruence.
  - intros [-> ->]. reflexivity.
Qed.

Lemma get_length_le (self : Recommendations) (user_id : UserId) (k : Z)
  (recs : list ItemId) (self' : Recommendations) :
  0 <= k -> get self user_id k = (Ok recs, self') ->
  Z.of_nat (length recs) <= k.
Proof.
  intros Hk. unfold get, get_try, loc.
  destruct (recs_personal self) as [frame |];
    [| intros [= <- _]; simpl; lia].
  destruct (rows_of frame user_id) as [|a [|b P]]; simpl.
  - destruct (recs_default self); [| done].
    intros [= <- _]. by apply slice_to_length_le.
  - intros [= <- _]. simpl. lia.
  - intros [= <- _]. by apply slice_to_length_le.
Qed.

Lemma recommendations_online_shape (env : Stores) (user_id : UserId)
  (k : Z) (recs : list ItemId) :
  0 <= k -> recommendations_online env user_id k = Ok recs ->
  NoDup recs ∧ Z.of_nat (length recs) <= k.
Proof.
  intros Hk Hrun.
  apply recommendations_online_inv in Hrun as (events & acc & _ & _ & ->).
  split; [| by apply slice_to_length_le].
  eapply sublist_NoDup; [apply dedup_ids_NoDup | apply slice_to_sublist].
Qed.

(** X24.  A user without events: when the events lookup returns nothing,
    the blending endpoint answers with the offline list, deduplicated and
    cut to [k]; for [k >= 0] and an offline list without repeats that is
    the offline list itself. *)
Theorem recommendations_without_events (env : Stores)
  (rec_store rec_store' : Recommendations) (user_id : UserId) (k : Z)
  (O : list ItemId)
  (Hev : events_store env user_id 3 = Ok [])
  (Hoff : recommendations_offline rec_store user_id k = (Ok O, rec_store')) :
  recommendations env rec_store user_id k
  = (Ok (slice_to (dedup_ids O) k), rec_store')
  ∧ (0 <= k → NoDup O →
     recommendations env rec_store user_id k = (Ok O, rec_store')).
Proof.
  assert (Hon : recommendations_online env user_id k = Ok []).
  { rewrite (recommendations_online_returns env user_id k [] ([], []) Hev)
      by reflexivity.
    f_equal. apply (slice_to_nil k). }
  assert (Hrun : recommendations env rec_store user_id k
                 = (Ok (slice_to (dedup_ids O) k), rec_store')).
  { unfold recommendations. rewrite Hoff, Hon.
    unfold blend. by rewrite blend_raw_nil_r. }
  split; [done |].
  intros Hk Hnd. rewrite Hrun, dedup_ids_NoDup_id by done.
  rewrite slice_to_all; [done |].
  by apply (get_length_le rec_store user_id k O rec_store').
Qed.

Lemma recommendations_without_events_witness :
  recommendations
    {| events_store := λ _ _, Ok [];
       features_store := features_store sample_env |} sample_store 8 2
  = (Ok [1; 2], count_personal sample_store).
Proof.
  destruct (recommendations_without_events
              {| events_store := λ _ _, Ok [];
                 features_store := features_store sample_env |}
              sample_store (count_personal sample_store) 8 2 [1; 2]
              eq_refl eq_refl) as [_ Hsame].
  apply Hsame; [lia |]. compute_done.
Defined.

(** X25.  An empty offline answer: when the offline half returns no item
    and [k >= 0], the blending endpoint answers with exactly the list of
    the online generator. *)
Theorem recommendations_without_offline (env : Stores)
  (rec_store rec_store' : Recommendations) (user_id : UserId) (k : Z)
  (N : list ItemId)
  (Hk : 0 <= k)
  (Hoff : recommendations_offline rec_store user_id k = (Ok [], rec_store'))
  (Hon : recommendations_online env user_id k = Ok N) :
  recommendations env rec_store user_id k = (Ok N, rec_store').
Proof.
  destruct (recommendations_online_shape env user_id k N Hk Hon)
    as [Hnd Hlen].
  unfold recommendations. rewrite Hoff, Hon.
  unfold blend. rewrite blend_raw_nil_l, dedup_ids_NoDup_id by done.
  by rewrite slice_to_all.
Qed.

Lemma recommendations_without_offline_witness :
  recommendations sample_env sample_store 7 10
  = (Ok [1; 2; 3], sample_store).
Proof.
  apply (recommendations_without_offline sample_env sample_store
           sample_store 7 10 [1; 2; 3]); [lia | reflexivity | reflexivity].
Defined.

(** ** Missing tables *)



